(** * TREM-Lite target-area intensity monitor ([tools/subscribe-data.js])

    A shallow embedding of the polling / reconciliation / broadcast loop of
    [tools/subscribe-data.js] together with the properties of its
    specification.

    Conventions of the embedding:
    - a JavaScript number is its exact value: a rational for a finite
      double, or one of [+Infinity], [-Infinity], [NaN].  Comparisons and
      [Math.round] are exact operations on doubles, so they are computed on
      the exact value;
    - a JSON object read as a record has one field per member the script
      reads.  The members [pga] and [i] of a reading, which the script
      stores unchecked and calls [toFixed] on, hold any value ([undefined]
      when absent); the last element of a station's history is an object or
      [null]; the other members have the types of the upstream API, with
      [None] for an absent one;
    - the module-level [let]/[const] variables of the script form one record
      ([World]) threaded through a state-and-exception monad; console output
      and WebSocket sends are appended to a trace;
    - the outcome of a network request and the readings of the clock are
      inputs of the transition they belong to;
    - [fetchRealtimeData] and the functions it calls are first given as one
      call run from its first statement to its last, then cut at the
      [await]s where other calls of the timer can run ([start], [resume],
      [eventLoop]); the two agree on a call that nothing overlaps. *)

From Stdlib Require Import ZArith QArith Qround Floats Lia Lqa.
From stdpp Require Import gmap strings list.

(** ** The fragment of JavaScript the script relies on *)

Module JS.

(** Numbers by exact value. *)
Inductive number : Type :=
| Fin (q : Q)
| PInf
| NInf
| NaN.

(** Values found in the fields the script reads and writes: [undefined]
    (an absent field), the JSON scalars, and an object or array, known by
    its identity. *)
Inductive value : Type :=
| VUndefined
| VNull
| VBool (b : bool)
| VNum (n : number)
| VStr (s : string)
| VObj (ref : nat).

(** [x < y] *)
Definition lt (x y : number) : bool :=
  match x, y with
  | NaN, _ | _, NaN => false
  | Fin a, Fin b => negb (Qle_bool b a)
  | NInf, NInf => false
  | NInf, _ => true
  | _, NInf => false
  | PInf, _ => false
  | Fin _, PInf => true
  end.

(** [x <= y] *)
Definition le (x y : number) : bool :=
  match x, y with
  | NaN, _ | _, NaN => false
  | Fin a, Fin b => Qle_bool a b
  | NInf, _ => true
  | _, NInf => false
  | _, PInf => true
  | PInf, Fin _ => false
  end.

(** [x >= y] *)
Definition ge (x y : number) : bool := le y x.

(** [x === y] on numbers: numeric equality, false on [NaN]. *)
Definition num_eq (x y : number) : bool :=
  match x, y with
  | Fin a, Fin b => Qeq_bool a b
  | PInf, PInf | NInf, NInf => true
  | _, _ => false
  end.

(** [x === y] on values. *)
Definition strict_eq (x y : value) : bool :=
  match x, y with
  | VUndefined, VUndefined => true
  | VNull, VNull => true
  | VBool a, VBool b => bool_decide (a = b)
  | VNum a, VNum b => num_eq a b
  | VStr s, VStr t => bool_decide (s = t)
  | VObj a, VObj b => bool_decide (a = b)
  | _, _ => false
  end.

(** [x !== y] *)
Definition strict_neq (x y : value) : bool := negb (strict_eq x y).

(** [Math.round]: the integer nearest to the exact value, ties towards
    [+Infinity]; infinities and [NaN] are returned as they are. *)
Definition Math_round (x : number) : number :=
  match x with
  | Fin q => Fin (inject_Z (Qfloor (q + (1 # 2))))
  | _ => x
  end.

(** [ToBoolean] on a number: [0] and [NaN] are falsy. *)
Definition num_truthy (x : number) : bool :=
  match x with
  | Fin q => negb (Qeq_bool q 0)
  | NaN => false
  | _ => true
  end.

(** [ToBoolean]: [undefined], [null], [false], [0], [NaN] and the empty
    string are falsy. *)
Definition truthy (v : value) : bool :=
  match v with
  | VUndefined | VNull => false
  | VBool b => b
  | VNum n => num_truthy n
  | VStr s => negb (bool_decide (s = EmptyString))
  | VObj _ => true
  end.

(** [typeof v === 'number']: the values that have [toFixed]. *)
Definition is_number (v : value) : bool :=
  match v with
  | VNum _ => true
  | _ => false
  end.

(** A field that may be absent, read as a value. *)
Definition field (o : option number) : value :=
  match o with
  | Some n => VNum n
  | None => VUndefined
  end.

(** The exact value of a binary64 double. *)
Definition of_float (f : float) : number :=
  match Prim2SF f with
  | S754_zero _ => Fin 0
  | S754_infinity false => PInf
  | S754_infinity true => NInf
  | S754_nan => NaN
  | S754_finite s m e =>
      let v := (inject_Z (Z.pos m) * Qpower 2 e)%Q in
      Fin (if s then Qopp v else v)
  end.

(** An integer as a number. *)
Definition int (k : Z) : number := Fin (inject_Z k).

End JS.

Import JS.

(** ** Configuration and constants (lines 15-65) *)

Module Area.
Record t : Type := { code : Z; name : string }.
End Area.

Module CONFIG.
Definition interval : Z := 1000.
Definition targetAreas : list Area.t :=
  [ {| Area.code := 106; Area.name := "臺北市大安區" |};
    {| Area.code := 402; Area.name := "臺中市南區" |};
    {| Area.code := 710; Area.name := "臺南市永康區" |};
    {| Area.code := 301; Area.name := "新竹市東區" |} ].
End CONFIG.

Definition INTENSITY_LIST : list string :=
  ["0"; "1"; "2"; "3"; "4"; "5⁻"; "5⁺"; "6⁻"; "6⁺"; "7"].

Definition STATION_INFO_INTERVAL : Z := 5 * 60 * 1000.

(** ** Intensity model (lines 83-140) *)

(** [pgaToFloat] and [pgaToIntensity] go through [Math.log] and are left out:
    nothing below depends on them. *)
Module IntensityCalculator.

Definition intensityFloatToInt (floatValue : number) : number :=
  if lt floatValue (Fin 0) then Fin 0
  else if lt floatValue (Fin 4.5) then Math_round floatValue
  else if lt floatValue (Fin 5) then Fin 5
  else if lt floatValue (Fin 5.5) then Fin 6
  else if lt floatValue (Fin 6) then Fin 7
  else if lt floatValue (Fin 6.5) then Fin 8
  else Fin 9.

(** [INTENSITY_LIST[level]]: an array read at a number is defined at the
    integers [0 .. length-1] only. *)
Definition index (l : list string) (level : number) : value :=
  match level with
  | Fin q =>
      if Qeq_bool q (inject_Z (Qfloor q)) then
        match Qfloor q with
        | Zneg _ => VUndefined
        | k => from_option VStr VUndefined (l !! Z.to_nat k)
        end
      else VUndefined
  | _ => VUndefined
  end.

Definition intensityToText (level : number) : value :=
  if ge level (Fin 0) && lt level (int (Z.of_nat (length INTENSITY_LIST)))
  then index INTENSITY_LIST level
  else VStr "不明".

End IntensityCalculator.

Import IntensityCalculator.

(** ** Upstream data *)

(** One element of a station's [info] history. *)
Module Info.
Record t : Type := { code : Z; lat : number; lon : number }.
End Info.

(** One station of the directory served by [/api/v1/trem/station]; an
    element of its history is an object, or [None]: JSON [null] (or nothing
    at that index), whose [code] cannot be read.  An element without a
    numeric [code] is one whose code is no configured one. *)
Module Station.
Record t : Type := { info : option (list (option Info.t)) }.
End Station.

Abbreviation StationInfo := (gmap string Station.t).

(** One station's reading in the payload of [/api/v2/trem/rts].  The script
    stores [pga] and [i] unchecked and calls [toFixed] on them: they are
    any value here, [VUndefined] when absent. *)
Module Reading.
Record t : Type :=
  { pga : value; i : value; I : option number }.
End Reading.

(** The realtime payload: [station] lists the entries in the order
    [Object.entries] enumerates them; a reading is an object or JSON [null]. *)
Module Rts.
Record t : Type :=
  { time : option number;
    station : option (list (string * option Reading.t)) }.
End Rts.

(** ** The script's state *)

(** The value of [areaStatus[code]]. *)
Module Status.
Record t : Type :=
  { name : string;
    pga : value;
    intensity : value;
    intensityText : value;
    lastUpdate : option Z }.
End Status.

(** The string [x.toFixed(digits)], kept as the call that renders it. *)
Inductive Rendered : Type := toFixed (x : number) (digits : nat).

(** An element of [result.updatedAreas]. *)
Module Updated.
Record t : Type :=
  { code : Z;
    name : string;
    pga : value;
    intensityFloat : Rendered;
    intensity : value;
    intensityText : value;
    stationId : string;
    location : number * number }.
End Updated.

(** The object [processTargetAreaData] returns. *)
Module Result.
Record t : Type := { time : number; updatedAreas : list Updated.t }.
End Result.

Module Client.
Record t : Type := { id : nat; readyState : Z }.
End Client.

Definition OPEN : Z := 1.

Inductive Endpoint : Type := StationEndpoint | RtsEndpoint.

Inductive Exn : Type := TypeError | SyntaxError.

Inductive Message : Type :=
| NetworkRecovered
| RequestTimedOut
| RequestFailed
| StationInfoUpdated
| StationInfoFailed
| MissingStationInfo
| IntensityUpdated (area : Updated.t)
| FetchFailed (e : Exn).

(** What the process does to the outside: requests issued, console lines,
    a redraw of the terminal table ([displayAreaStatus]) and messages sent
    to subscribers, the last two with the [areaStatus] they show.
    [DisplayAborted snapshot code] is a redraw that cleared the terminal and
    drew the rows above the one of [code], whose rendering raised. *)
Inductive Event : Type :=
| Request (url : Endpoint)
| Console (m : Message)
| Display (snapshot : gmap Z Status.t)
| DisplayAborted (snapshot : gmap Z Status.t) (areaCode : Z)
| Send (client : nat) (snapshot : gmap Z Status.t).

Record World : Type :=
  { lastFetchTime : Z;
    requestCounter : Z;
    isOffline : bool;
    areaStatus : gmap Z Status.t;
    stationInfo : option StationInfo;
    lastStationInfoFetch : Z;
    trace : list Event }.

(** Lines 53-76: the initial values, [areaStatus] filled from the
    configuration. *)
Definition initialAreaStatus : gmap Z Status.t :=
  foldl (fun m area =>
           <[Area.code area :=
               {| Status.name := Area.name area;
                  Status.pga := VNum (Fin 0);
                  Status.intensity := VNum (Fin 0);
                  Status.intensityText := VStr "0";
                  Status.lastUpdate := None |}]> m)
        ∅ CONFIG.targetAreas.

Definition initialWorld : World :=
  {| lastFetchTime := 0;
     requestCounter := 0;
     isOffline := false;
     areaStatus := initialAreaStatus;
     stationInfo := None;
     lastStationInfoFetch := 0;
     trace := [] |}.

(** ** State and exceptions *)

Inductive Outcome (A : Type) : Type :=
| Ok (a : A)
| Throw (e : Exn).
Arguments Ok {A} a.
Arguments Throw {A} e.

Definition M (A : Type) : Type := World -> Outcome A * World.

Definition ret {A} (a : A) : M A := fun w => (Ok a, w).

Definition bind {A B} (m : M A) (k : A -> M B) : M B :=
  fun w =>
    match m w with
    | (Ok a, w') => k a w'
    | (Throw e, w') => (Throw e, w')
    end.

Definition throw {A} (e : Exn) : M A := fun w => (Throw e, w).

Definition try_catch {A} (m : M A) (handler : Exn -> M A) : M A :=
  fun w =>
    match m w with
    | (Ok a, w') => (Ok a, w')
    | (Throw e, w') => handler e w'
    end.

Definition get : M World := fun w => (Ok w, w).

Definition modify (f : World -> World) : M unit := fun w => (Ok tt, f w).

Notation "'let*' x ':=' c 'in' k" := (bind c (fun x => k))
  (at level 10, x name, c at level 100, k at level 200).
Notation "c ';;' k" := (bind c (fun _ => k))
  (at level 100, k at level 200, right associativity).

(** The state with [events] added to what the process has done. *)
Definition record (events : list Event) (w : World) : World :=
  {| lastFetchTime := lastFetchTime w; requestCounter := requestCounter w;
     isOffline := isOffline w; areaStatus := areaStatus w;
     stationInfo := stationInfo w;
     lastStationInfoFetch := lastStationInfoFetch w;
     trace := trace w ++ events |}.

Definition emit (e : Event) : M unit := modify (record [e]).

Definition set_isOffline (b : bool) : M unit :=
  modify (fun w =>
    {| lastFetchTime := lastFetchTime w; requestCounter := requestCounter w;
       isOffline := b; areaStatus := areaStatus w;
       stationInfo := stationInfo w;
       lastStationInfoFetch := lastStationInfoFetch w;
       trace := trace w |}).

(** [areaStatus[areaCode] = s] *)
Definition overwrite (areaCode : Z) (s : Status.t) (w : World) : World :=
  {| lastFetchTime := lastFetchTime w; requestCounter := requestCounter w;
     isOffline := isOffline w;
     areaStatus := <[areaCode := s]> (areaStatus w);
     stationInfo := stationInfo w;
     lastStationInfoFetch := lastStationInfoFetch w;
     trace := trace w |}.

Definition set_areaStatus (areaCode : Z) (s : Status.t) : M unit :=
  modify (overwrite areaCode s).

Definition set_stationInfo (si : StationInfo) (now : Z) : M unit :=
  modify (fun w =>
    {| lastFetchTime := lastFetchTime w; requestCounter := requestCounter w;
       isOffline := isOffline w; areaStatus := areaStatus w;
       stationInfo := Some si;
       lastStationInfoFetch := now;
       trace := trace w |}).

(** [lastFetchTime = now; requestCounter++] *)
Definition requested (now : Z) (w : World) : World :=
  {| lastFetchTime := now; requestCounter := requestCounter w + 1;
     isOffline := isOffline w; areaStatus := areaStatus w;
     stationInfo := stationInfo w;
     lastStationInfoFetch := lastStationInfoFetch w;
     trace := trace w |}.

Definition begin_request (now : Z) : M unit := modify (requested now).

Fixpoint forEach {A} (f : A -> M unit) (l : list A) : M unit :=
  match l with
  | [] => ret tt
  | x :: l' => f x ;; forEach f l'
  end.

(** ** Upstream client (lines 145-180) *)

(** A response: its [ok] flag and what [response.json()] resolves to,
    [None] when it rejects. *)
Record Response (B : Type) : Type := { ok : bool; json : option B }.
Arguments ok {B} r.
Arguments json {B} r.

(** What [fetch] does on one request: it rejects (by the abort of the
    timeout, or otherwise) or resolves to a response.  The server drawn by
    [getRandomServer] is part of this input. *)
Inductive Net (B : Type) : Type :=
| Rejected (aborted : bool)
| Resolved (r : Response B).
Arguments Rejected {B} aborted.
Arguments Resolved {B} r.

Definition fetchData {B} (url : Endpoint) (net : Net B) : M (option (Response B)) :=
  emit (Request url) ;;
  let* w := get in
  match net with
  | Resolved response =>
      (if isOffline w
       then emit (Console NetworkRecovered) ;; set_isOffline false
       else ret tt) ;;
      ret (Some response)
  | Rejected aborted =>
      (if negb (isOffline w)
       then emit (Console (if aborted then RequestTimedOut else RequestFailed)) ;;
            set_isOffline true
       else ret tt) ;;
      ret None
  end.

(** [await response.json()] *)
Definition parse {B} (response : Response B) : M B :=
  match json response with
  | Some body => ret body
  | None => throw SyntaxError
  end.

(** ** Station metadata cache (lines 185-208) *)

Definition getStationInfo (now : Z) (net : Net StationInfo) : M (option StationInfo) :=
  let refresh : M (option StationInfo) :=
    let* response := fetchData StationEndpoint net in
    match response with
    | Some r =>
        if ok r then
          let* body := parse r in
          set_stationInfo body now ;;
          emit (Console StationInfoUpdated) ;;
          ret (Some body)
        else emit (Console StationInfoFailed) ;; ret None
    | None => emit (Console StationInfoFailed) ;; ret None
    end in
  let* w := get in
  match stationInfo w with
  | Some cached =>
      if bool_decide (now - lastStationInfoFetch w < STATION_INFO_INTERVAL)%Z
      then ret (Some cached)
      else refresh
  | None => refresh
  end.

(** ** Reconciler (lines 215-285) *)

(** [stationData.pga || 0] *)
Definition or_zero (v : value) : value :=
  if truthy v then v else VNum (Fin 0).

(** [CONFIG.targetAreas.find(area => area.code === areaCode)] *)
Definition findTargetArea (areaCode : Z) : option Area.t :=
  List.find (fun area => (Area.code area =? areaCode)%Z) CONFIG.targetAreas.

(** The body of the [for] loop (lines 232-281) on one payload entry;
    [updatedAreas] is [result.updatedAreas] and [now] what [new Date()]
    reads. *)
Definition processEntry (stationInfo : StationInfo) (now : Z)
    (entry : string * option Reading.t) (updatedAreas : list Updated.t)
  : M (list Updated.t) :=
  let '(stationId, stationData) := entry in
  match stationInfo !! stationId with
  | None => ret updatedAreas
  | Some station =>
  match Station.info station with
  | None => ret updatedAreas
  | Some info =>
  match last info with
  | None => ret updatedAreas
  | Some None => throw TypeError
  | Some (Some latestInfo) =>
  let areaCode := Info.code latestInfo in
  match findTargetArea areaCode with
  | None => ret updatedAreas
  | Some targetArea =>
  match stationData with
  | None => throw TypeError
  | Some reading =>
  let pga := or_zero (Reading.pga reading) in
  let intensityFloat := Reading.i reading in
  let intensityInt := field (Reading.I reading) in
  let intensityText := Reading.i reading in
  let* w := get in
  match areaStatus w !! areaCode with
  | None => throw TypeError
  | Some current =>
  let changed :=
    strict_neq (Status.pga current) pga
    || strict_neq (Status.intensity current) intensityInt in
  if changed || negb (bool_decide (is_Some (Status.lastUpdate current))) then
    set_areaStatus areaCode
      {| Status.name := Area.name targetArea;
         Status.pga := pga;
         Status.intensity := intensityInt;
         Status.intensityText := intensityText;
         Status.lastUpdate := Some now |} ;;
    match intensityFloat with
    | VNum x =>
        ret (updatedAreas ++
               [ {| Updated.code := areaCode;
                    Updated.name := Area.name targetArea;
                    Updated.pga := pga;
                    Updated.intensityFloat := toFixed x 2;
                    Updated.intensity := intensityInt;
                    Updated.intensityText := intensityText;
                    Updated.stationId := stationId;
                    Updated.location := (Info.lat latestInfo, Info.lon latestInfo) |} ])
    | _ => throw TypeError
    end
  else ret updatedAreas
  end end end end end end.

(** The [for] loop over [Object.entries(data.station)]. *)
Fixpoint forEntries (stationInfo : StationInfo) (now : Z)
    (entries : list (string * option Reading.t)) (updatedAreas : list Updated.t)
  : M (list Updated.t) :=
  match entries with
  | [] => ret updatedAreas
  | entry :: rest =>
      let* updatedAreas' := processEntry stationInfo now entry updatedAreas in
      forEntries stationInfo now rest updatedAreas'
  end.

(** [data.time || Date.now()] *)
Definition time_or (o : option number) (now : Z) : number :=
  match o with
  | Some n => if num_truthy n then n else int now
  | None => int now
  end.

(** [processTargetAreaData(data)]: [now] is the reading of the clock during
    the call and [net] the answer to the request [getStationInfo] may issue. *)
Definition processTargetAreaData (data : option Rts.t) (now : Z)
    (net : Net StationInfo) : M (option Result.t) :=
  match data with
  | None => ret None
  | Some d =>
  match Rts.station d with
  | None => ret None
  | Some entries =>
      let* stationInfo := getStationInfo now net in
      match stationInfo with
      | None => emit (Console MissingStationInfo) ;; ret None
      | Some stationInfo =>
          let* updatedAreas := forEntries stationInfo now entries [] in
          ret (Some {| Result.time := time_or (Rts.time d) now;
                       Result.updatedAreas := updatedAreas |})
      end
  end end.

(** ** Display and broadcast (lines 308-343, 380-389) *)

(** The row of one area can be rendered (lines 317-338): reading a field of
    a missing [areaStatus[area.code]] is a [TypeError], and so is
    [status.pga.toFixed(2)] when [pga] is not a number. *)
Definition renders (store : gmap Z Status.t) (area : Area.t) : bool :=
  match store !! Area.code area with
  | Some status => is_number (Status.pga status)
  | None => false
  end.

(** [displayAreaStatus()]: one redraw showing every configured area, cut
    short by the [TypeError] of the first row that cannot be rendered. *)
Definition displayAreaStatus : M unit :=
  let* w := get in
  match List.find (fun area => negb (renders (areaStatus w) area)) CONFIG.targetAreas with
  | None => emit (Display (areaStatus w))
  | Some area =>
      emit (DisplayAborted (areaStatus w) (Area.code area)) ;;
      throw TypeError
  end.

(** [wss.clients.forEach(...)]: [clients] is [None] when there is no server
    and otherwise the connections at the time of the broadcast. *)
Definition broadcast (clients : option (list Client.t)) : M unit :=
  match clients with
  | None => ret tt
  | Some cs =>
      forEach (fun client =>
                 if (Client.readyState client =? OPEN)%Z
                 then let* w := get in emit (Send (Client.id client) (areaStatus w))
                 else ret tt) cs
  end.

(** [area.intensity > 0], on what an intensity is here: a number or
    [undefined] ([I] has the type of the upstream API). *)
Definition positive (v : value) : bool :=
  match v with
  | VNum n => lt (Fin 0) n
  | VBool b => b
  | _ => false
  end.

(** ** Poll loop (lines 348-410) *)

(** The inputs of one call of [fetchRealtimeData]. *)
Module Tick.
Record t : Type :=
  { now : Z;
    rts : Net (option Rts.t);
    processNow : Z;
    station : Net StationInfo;
    clients : option (list Client.t) }.
End Tick.

(** Lines 394-398: the console line of one changed area; it renders
    [area.pga.toFixed(2)]. *)
Definition logUpdate (area : Updated.t) : M unit :=
  if positive (Updated.intensity area) then
    if is_number (Updated.pga area)
    then emit (Console (IntensityUpdated area))
    else throw TypeError
  else ret tt.

(** Lines 368-400: what is done with the answer of the realtime service. *)
Definition handleResponse (tick : Tick.t)
    (rtsResponse : option (Response (option Rts.t))) : M unit :=
  match rtsResponse with
  | Some r =>
      if ok r then
        let* rtsData := parse r in
        let* targetAreaData :=
          processTargetAreaData rtsData (Tick.processNow tick) (Tick.station tick) in
        displayAreaStatus ;;
        broadcast (Tick.clients tick) ;;
        match targetAreaData with
        | Some result =>
            forEach logUpdate (Result.updatedAreas result)
        | None => ret tt
        end
      else ret tt
  | None => ret tt
  end.

(** Lines 402-405: the redraw of every 60th request; [requestCounter] is
    read here, when the call gets to the test. *)
Definition heartbeat : M unit :=
  let* w := get in
  if (requestCounter w mod 60 =? 0)%Z then displayAreaStatus else ret tt.

(** The statements inside [try { ... }] (lines 362-405), for a call during
    which no other call runs: the counter [heartbeat] reads is then the one
    this call has set. *)
Definition fetchCycle (tick : Tick.t) : M unit :=
  let* rtsResponse := fetchData RtsEndpoint (Tick.rts tick) in
  handleResponse tick rtsResponse ;;
  heartbeat.

Definition fetchRealtimeData (tick : Tick.t) : M unit :=
  let* w := get in
  if bool_decide (Tick.now tick - lastFetchTime w < CONFIG.interval)%Z then ret tt
  else
    begin_request (Tick.now tick) ;;
    try_catch (fetchCycle tick)
              (fun error => emit (Console (FetchFailed error))).

(** The calls of the timer when each one has ended before the next one
    begins; [fetchRealtimeData], [fetchCycle] and the functions they call
    are, as defined above, a call during which no other call runs.  Calls
    that overlap are the subject of [eventLoop] below. *)
Definition poll (ticks : list Tick.t) : M unit := forEach fetchRealtimeData ticks.

(** [main()]: the first [getStationInfo], the first display and calls that
    follow one another, as the first call, which [main] awaits (line 437),
    does. *)
Definition main (now : Z) (net : Net StationInfo) (ticks : list Tick.t) : M unit :=
  getStationInfo now net ;;
  displayAreaStatus ;;
  poll ticks.

(** ** Calls that overlap (lines 145-172, 185-208, 215-285, 348-410, 440) *)

(** [setInterval] (line 440) starts a call every [CONFIG.interval]
    milliseconds, whether or not the calls before it have ended: a request
    may take longer than the interval.  A call lets other calls run at its
    [await]s, and runs alone from one to the next.  [Await] lists the
    points where a call of [fetchRealtimeData] waits, in its own body or in
    the body of an [async] function it has called, with what the call
    holds there. *)
Inductive Await : Type :=
| RtsFetch
    (* line 149, called from line 363: await fetch(...) *)
| RtsReturned (rtsResponse : option (Response (option Rts.t)))
    (* line 363: await fetchData(...) *)
| RtsBody (rtsResponse : Response (option Rts.t))
    (* line 369: await rtsResponse.json() *)
| StationFetch (time : option number) (entries : list (string * option Reading.t))
    (* line 149, called from line 196: await fetch(...) *)
| StationReturned (time : option number) (entries : list (string * option Reading.t))
    (response : option (Response StationInfo))
    (* line 196: await fetchData(...) *)
| StationBody (time : option number) (entries : list (string * option Reading.t))
    (response : Response StationInfo)
    (* line 202: await response.json() *)
| StationInfoReturned (time : option number)
    (entries : list (string * option Reading.t)) (stationInfo : option StationInfo)
    (* line 218: await getStationInfo(), which has returned *)
| StationInfoThrew (error : Exn)
    (* line 218: await getStationInfo(), which has thrown *)
| Processed (targetAreaData : option Result.t)
    (* line 374: await processTargetAreaData(...), which has returned *)
| ProcessThrew (error : Exn).
    (* line 374: await processTargetAreaData(...), which has thrown *)

(** Lines 150-171: [fetchData] from the point where [fetch] has settled. *)
Definition fetched {B} (net : Net B) : M (option (Response B)) :=
  let* w := get in
  match net with
  | Resolved response =>
      (if isOffline w
       then emit (Console NetworkRecovered) ;; set_isOffline false
       else ret tt) ;;
      ret (Some response)
  | Rejected aborted =>
      (if negb (isOffline w)
       then emit (Console (if aborted then RequestTimedOut else RequestFailed)) ;;
            set_isOffline true
       else ret tt) ;;
      ret None
  end.

(** Lines 219-284: [processTargetAreaData] from the point where
    [getStationInfo] has returned. *)
Definition reconcile (time : option number)
    (entries : list (string * option Reading.t)) (now : Z)
    (stationInfo : option StationInfo) : M (option Result.t) :=
  match stationInfo with
  | None => emit (Console MissingStationInfo) ;; ret None
  | Some stationInfo =>
      let* updatedAreas := forEntries stationInfo now entries [] in
      ret (Some {| Result.time := time_or time now;
                   Result.updatedAreas := updatedAreas |})
  end.

(** Lines 377-400: the display, the broadcast and the console lines that
    follow [processTargetAreaData]. *)
Definition publish (tick : Tick.t) (targetAreaData : option Result.t) : M unit :=
  displayAreaStatus ;;
  broadcast (Tick.clients tick) ;;
  match targetAreaData with
  | Some result => forEach logUpdate (Result.updatedAreas result)
  | None => ret tt
  end.

(** The rest of the body of an [async] function: what it returns or throws
    settles its promise, and its caller goes on at its [await]. *)
Definition settles {A} (rest : M A) (returned : A -> Await) (threw : Exn -> Await)
  : M (option Await) :=
  try_catch (let* a := rest in ret (Some (returned a)))
            (fun error => ret (Some (threw error))).

(** The call from the point where what it waited for at [a] has arrived,
    up to the next point where it waits ([Some]) or to the end of the block
    of line 367 ([None]); what is thrown is thrown under the [try] of line
    361. *)
Definition advance (tick : Tick.t) (a : Await) : M (option Await) :=
  let now := Tick.processNow tick in
  match a with
  | RtsFetch =>
      let* rtsResponse := fetched (Tick.rts tick) in
      ret (Some (RtsReturned rtsResponse))
  | RtsReturned rtsResponse =>
      match rtsResponse with
      | Some r => if ok r then ret (Some (RtsBody r)) else ret None
      | None => ret None
      end
  | RtsBody r =>
      let* rtsData := parse r in
      match rtsData with
      | None => ret (Some (Processed None))
      | Some d =>
      match Rts.station d with
      | None => ret (Some (Processed None))
      | Some entries =>
          let* w := get in
          let cached :=
            match stationInfo w with
            | Some cached =>
                if bool_decide (now - lastStationInfoFetch w < STATION_INFO_INTERVAL)%Z
                then Some cached else None
            | None => None
            end in
          match cached with
          | Some cached =>
              ret (Some (StationInfoReturned (Rts.time d) entries (Some cached)))
          | None =>
              emit (Request StationEndpoint) ;;
              ret (Some (StationFetch (Rts.time d) entries))
          end
      end end
  | StationFetch time entries =>
      let* response := fetched (Tick.station tick) in
      ret (Some (StationReturned time entries response))
  | StationReturned time entries response =>
      let failure : M (option Await) :=
        emit (Console StationInfoFailed) ;;
        ret (Some (StationInfoReturned time entries None)) in
      match response with
      | Some r => if ok r then ret (Some (StationBody time entries r)) else failure
      | None => failure
      end
  | StationBody time entries r =>
      settles (let* body := parse r in
               set_stationInfo body now ;;
               emit (Console StationInfoUpdated) ;;
               ret (Some body))
              (StationInfoReturned time entries) StationInfoThrew
  | StationInfoReturned time entries stationInfo =>
      settles (reconcile time entries now stationInfo) Processed ProcessThrew
  | StationInfoThrew error => ret (Some (ProcessThrew error))
  | Processed targetAreaData => publish tick targetAreaData ;; ret None
  | ProcessThrew error => throw error
  end.

(** The timer callback up to the first [await]: lines 349-363 and 146-149. *)
Definition start (tick : Tick.t) : M (option Await) :=
  let* w := get in
  if bool_decide (Tick.now tick - lastFetchTime w < CONFIG.interval)%Z then ret None
  else
    begin_request (Tick.now tick) ;;
    emit (Request RtsEndpoint) ;;
    ret (Some RtsFetch).

(** The call taken up again at [a], inside the [try] of line 361: it goes
    on to the next point where it waits, or through the test of line 403 to
    its end. *)
Definition resume (tick : Tick.t) (a : Await) : M (option Await) :=
  try_catch
    (let* next := advance tick a in
     match next with
     | Some a' => ret (Some a')
     | None => heartbeat ;; ret None
     end)
    (fun error => emit (Console (FetchFailed error)) ;; ret None).

(** What the event loop runs next: the timer callback, with the inputs of
    the call it starts, or the [n]-th of the calls that wait, what it
    waited for having arrived. *)
Inductive Turn : Type :=
| Timer (tick : Tick.t)
| Settled (n : nat).

(** The calls that wait, each with its inputs. *)
Definition Flights : Type := list (Tick.t * Await).

Definition turn (t : Turn) (st : World * Flights) : World * Flights :=
  let '(w, flights) := st in
  match t with
  | Timer tick =>
      match start tick w with
      | (Ok (Some a), w') => (w', flights ++ [(tick, a)])
      | (_, w') => (w', flights)
      end
  | Settled n =>
      match flights !! n with
      | None => (w, flights)
      | Some (tick, a) =>
          match resume tick a w with
          | (Ok (Some a'), w') => (w', <[n := (tick, a')]> flights)
          | (_, w') => (w', delete n flights)
          end
      end
  end.

Definition eventLoop (turns : list Turn) (st : World * Flights) : World * Flights :=
  foldl (fun st t => turn t st) st turns.

(** The turns of a call that no other call overlaps: a call waits at most
    eight times. *)
Definition alone (tick : Tick.t) : list Turn :=
  Timer tick :: replicate 8 (Settled 0).

(** ** Vocabulary of the properties *)

(** The request did not produce an OK response. *)
Definition failed {B} (net : Net B) : bool :=
  match net with
  | Rejected _ => true
  | Resolved r => negb (ok r)
  end.

(** The cache is cold or older than the refresh interval at time [now]. *)
Definition expired (now : Z) (w : World) : Prop :=
  stationInfo w = None \/
  (STATION_INFO_INTERVAL <= now - lastStationInfoFetch w)%Z.

(** [m] keeps [P]: whatever [m] returns or throws, [P] holds afterwards. *)
Definition preserves {A} (P : World -> Prop) (m : M A) : Prop :=
  forall w r w', P w -> m w = (r, w') -> P w'.

(** The codes of the configured areas. *)
Definition targets : gset Z := list_to_set (Area.code <$> CONFIG.targetAreas).

(** [P] does not look at the connectivity flag or the station cache and
    holds on when events are added to the trace. *)
Definition bookkeeping_free (P : World -> Prop) : Prop :=
  forall w off si last events,
    P w ->
    P {| lastFetchTime := lastFetchTime w; requestCounter := requestCounter w;
         isOffline := off; areaStatus := areaStatus w; stationInfo := si;
         lastStationInfoFetch := last; trace := trace w ++ events |}.

(** [P] survives the overwriting of a configured area's status. *)
Definition overwrite_stable (P : World -> Prop) : Prop :=
  forall w areaCode s, areaCode ∈ targets -> P w -> P (overwrite areaCode s w).

Definition store_invariant (w : World) : Prop := dom (areaStatus w) = targets.

(** The current assignment of a station when it lies in a configured area:
    the last element of its history and the area found for its code. *)
Definition currentArea (si : StationInfo) (stationId : string)
  : option (Info.t * Area.t) :=
  match si !! stationId with
  | None => None
  | Some station =>
      match Station.info station with
      | None => None
      | Some info =>
          match last info with
          | Some (Some latestInfo) =>
              match findTargetArea (Info.code latestInfo) with
              | None => None
              | Some targetArea => Some (latestInfo, targetArea)
              end
          | _ => None
          end
      end
  end.

(** The last element of the station's history is [null]: reading its
    [code] (line 240) is a [TypeError]. *)
Definition nullInfo (si : StationInfo) (stationId : string) : bool :=
  match si !! stationId with
  | None => false
  | Some station =>
      match Station.info station with
      | None => false
      | Some info =>
          match last info with
          | Some None => true
          | _ => false
          end
      end
  end.

(** The entries the claim C7 speaks of: the station is not in the directory,
    or it has no history, or its current area code is not configured. *)
Definition ignored (si : StationInfo) (stationId : string) : Prop :=
  si !! stationId = None \/
  (exists station, si !! stationId = Some station /\
     (Station.info station = None \/ Station.info station = Some [])) \/
  (exists station info latestInfo,
     si !! stationId = Some station /\ Station.info station = Some info /\
     last info = Some (Some latestInfo) /\ Info.code latestInfo ∉ targets).

(** The status written for a reading, and the element pushed for it. *)
Definition statusOf (targetArea : Area.t) (reading : Reading.t) (now : Z) : Status.t :=
  {| Status.name := Area.name targetArea;
     Status.pga := or_zero (Reading.pga reading);
     Status.intensity := field (Reading.I reading);
     Status.intensityText := Reading.i reading;
     Status.lastUpdate := Some now |}.

Definition updatedOf (stationId : string) (latestInfo : Info.t)
    (targetArea : Area.t) (reading : Reading.t) (x : number) : Updated.t :=
  {| Updated.code := Info.code latestInfo;
     Updated.name := Area.name targetArea;
     Updated.pga := or_zero (Reading.pga reading);
     Updated.intensityFloat := toFixed x 2;
     Updated.intensity := field (Reading.I reading);
     Updated.intensityText := Reading.i reading;
     Updated.stationId := stationId;
     Updated.location := (Info.lat latestInfo, Info.lon latestInfo) |}.

(** The test of lines 253-259. *)
Definition needsUpdate (current : Status.t) (reading : Reading.t) : bool :=
  (strict_neq (Status.pga current) (or_zero (Reading.pga reading))
   || strict_neq (Status.intensity current) (field (Reading.I reading)))
  || negb (bool_decide (is_Some (Status.lastUpdate current))).

(** [reading] is the reading of [stationId] in the payload [data]. *)
Definition payload_entry (data : option Rts.t) (stationId : string)
    (reading : Reading.t) : Prop :=
  exists d entries,
    data = Some d /\ Rts.station d = Some entries /\
    (stationId, Some reading) ∈ entries.

(** The last element of the station's history is not [null], and the entry
    is one the loop skips or its reading is an object whose field [i] is a
    number. *)
Definition numeric_reading (si : StationInfo)
    (entry : string * option Reading.t) : Prop :=
  nullInfo si (fst entry) = false /\
  (currentArea si (fst entry) = None \/
   exists reading x, snd entry = Some reading /\ Reading.i reading = VNum x).

(** No number of the payload is [NaN], as in what [response.json()]
    yields. *)
Definition json_payload (entries : list (string * option Reading.t)) : Prop :=
  forall stationId reading,
    (stationId, Some reading) ∈ entries ->
    Reading.pga reading <> VNum NaN /\ Reading.i reading <> VNum NaN /\
    Reading.I reading <> Some NaN.

(** Two entries of stations in one configured area carry the same [pga]
    (read with the default 0) and the same integer intensity. *)
Definition agree (si : StationInfo) (e1 e2 : string * option Reading.t) : Prop :=
  forall l1 a1 l2 a2 r1 r2,
    currentArea si (fst e1) = Some (l1, a1) ->
    currentArea si (fst e2) = Some (l2, a2) ->
    Info.code l1 = Info.code l2 ->
    snd e1 = Some r1 -> snd e2 = Some r2 ->
    strict_eq (or_zero (Reading.pga r1)) (or_zero (Reading.pga r2)) = true /\
    strict_eq (field (Reading.I r1)) (field (Reading.I r2)) = true.

Definition one_value_per_area (si : StationInfo)
    (entries : list (string * option Reading.t)) : Prop :=
  forall e1 e2, e1 ∈ entries -> e2 ∈ entries -> agree si e1 e2.

(** The store already shows the entry: the loop body would not write. *)
Definition settled (store : gmap Z Status.t) (si : StationInfo)
    (entry : string * option Reading.t) : Prop :=
  nullInfo si (fst entry) = false /\
  forall latestInfo targetArea,
    currentArea si (fst entry) = Some (latestInfo, targetArea) ->
    exists reading current,
      snd entry = Some reading /\
      store !! Info.code latestInfo = Some current /\
      needsUpdate current reading = false.

(** What [fetchData] hands back. *)
Definition answer {B} (net : Net B) : option (Response B) :=
  match net with
  | Resolved r => Some r
  | Rejected _ => None
  end.

(** What a changed-list element says about the payload it comes from. *)
Definition reported (si : StationInfo)
    (entries : list (string * option Reading.t)) (u : Updated.t) : Prop :=
  exists l a reading x,
    (Updated.stationId u, Some reading) ∈ entries /\
    currentArea si (Updated.stationId u) = Some (l, a) /\
    Reading.i reading = VNum x /\
    u = updatedOf (Updated.stationId u) l a reading x.

(** The calls come at least one interval apart, the first one at least one
    interval after [last]. *)
Fixpoint spaced (last : Z) (ticks : list Tick.t) : Prop :=
  match ticks with
  | [] => True
  | tick :: rest =>
      (CONFIG.interval <= Tick.now tick - last)%Z /\ spaced (Tick.now tick) rest
  end.

(** ** Worked scenarios *)

Module Scenario.

Definition station (areaCode : Z) : Station.t :=
  {| Station.info :=
       Some [ Some {| Info.code := 100; Info.lat := Fin 24; Info.lon := Fin 120 |};
              Some {| Info.code := areaCode; Info.lat := Fin 25;
                      Info.lon := Fin 121.5 |} ] |}.

(** S1 and S2 lie in the configured area 106, S3 in 402, S4 in an area that
    is not configured, S5 has an empty history, the history of S6 ends in
    [null]. *)
Definition directory : StationInfo :=
  list_to_map
    [ ("S1", station 106); ("S2", station 106); ("S3", station 402);
      ("S4", station 999); ("S5", {| Station.info := Some [] |});
      ("S6", {| Station.info :=
                  Some [ Some {| Info.code := 106; Info.lat := Fin 25;
                                 Info.lon := Fin 121.5 |};
                         None ] |}) ].

Definition reading (pga i : Q) (I : Z) : option Reading.t :=
  Some {| Reading.pga := VNum (Fin pga); Reading.i := VNum (Fin i);
          Reading.I := Some (int I) |}.

Definition payload (entries : list (string * option Reading.t)) : option Rts.t :=
  Some {| Rts.time := Some (int 1700000000000); Rts.station := Some entries |}.

(** The answer of the station service carrying the directory. *)
Definition served : Net StationInfo :=
  Resolved {| ok := true; json := Some directory |}.

(** The state once the directory has been fetched at time 0. *)
Definition warm : World :=
  {| lastFetchTime := 0;
     requestCounter := 0;
     isOffline := false;
     areaStatus := initialAreaStatus;
     stationInfo := Some directory;
     lastStationInfoFetch := 0;
     trace := [] |}.

End Scenario.

(** A world whose cache holds a directory fetched at time 0. *)
Definition staleDirectory : StationInfo :=
  {[ "S1" := {| Station.info :=
                  Some [ Some {| Info.code := 106; Info.lat := Fin 25;
                                 Info.lon := Fin 121.5 |} ] |} ]}.

Definition staleWorld : World :=
  {| lastFetchTime := 0;
     requestCounter := 0;
     isOffline := false;
     areaStatus := initialAreaStatus;
     stationInfo := Some staleDirectory;
     lastStationInfoFetch := 0;
     trace := [] |}.

(** The state in which 59 requests have been counted. *)
Definition before60 : World :=
  {| lastFetchTime := 0;
     requestCounter := 59;
     isOffline := false;
     areaStatus := initialAreaStatus;
     stationInfo := Some Scenario.directory;
     lastStationInfoFetch := 0;
     trace := [] |}.

(** The 60th call: the realtime request times out while one subscriber is
    connected and ready. *)
Definition tick60 : Tick.t :=
  {| Tick.now := 60000;
     Tick.rts := Rejected true;
     Tick.processNow := 60000;
     Tick.station := Rejected true;
     Tick.clients := Some [ {| Client.id := 7; Client.readyState := OPEN |} ] |}.

(** The 60th call, answered at once with one reading while one subscriber
    is connected and ready. *)
Definition beat60 : Tick.t :=
  {| Tick.now := 60000;
     Tick.rts := Resolved {| ok := true;
                             json := Some (Scenario.payload
                                             [("S1", Scenario.reading 5 1.2 1)]) |};
     Tick.processNow := 60001;
     Tick.station := Rejected true;
     Tick.clients := Some [ {| Client.id := 7; Client.readyState := OPEN |} ] |}.

(** The 60th call, its request refused at once while one subscriber is
    connected and ready. *)
Definition refused60 : Tick.t :=
  {| Tick.now := 60000;
     Tick.rts := Rejected false;
     Tick.processNow := 60000;
     Tick.station := Rejected true;
     Tick.clients := Some [ {| Client.id := 7; Client.readyState := OPEN |} ] |}.

(** The call the timer starts one second after [tick60], whose request
    (2000 ms to its timeout) is still under way. *)
Definition tick61 : Tick.t :=
  {| Tick.now := 61000;
     Tick.rts := Rejected true;
     Tick.processNow := 61000;
     Tick.station := Rejected true;
     Tick.clients := Some [ {| Client.id := 7; Client.readyState := OPEN |} ] |}.


(** ** Endpoint pools (lines 27-35, 177-180) *)

(** The keys of [CONFIG.servers]; the callers of [getRandomServer] pass
    these two, so the fallback [|| CONFIG.servers.lb] is never taken. *)
Inductive Pool : Type := api | lb.

Module servers.
Definition api : list string := ["api-1.exptech.dev"; "api-2.exptech.dev"].
Definition lb : list string :=
  ["lb-1.exptech.dev"; "lb-2.exptech.dev"; "lb-3.exptech.dev"; "lb-4.exptech.dev"].
End servers.

(** [getRandomServer(type)], with [random] what [Math.random()] returns.
    Both pools have a power of two as length, so the product is exact. *)
Definition getRandomServer (type : Pool) (random : Q) : option string :=
  let servers := match type with api => servers.api | lb => servers.lb end in
  match Qfloor (random * inject_Z (Z.of_nat (length servers))) with
  | Zneg _ => None
  | k => servers !! Z.to_nat k
  end.

(** ** Further vocabulary *)

(** Every configured area has a status whose [pga] is a number. *)
Definition drawable (store : gmap Z Status.t) : bool :=
  forallb (renders store) CONFIG.targetAreas.

(** What a call of [displayAreaStatus] leaves on the terminal. *)
Definition redraw (store : gmap Z Status.t) : list Event :=
  match List.find (fun area => negb (renders store area)) CONFIG.targetAreas with
  | None => [Display store]
  | Some area => [DisplayAborted store (Area.code area)]
  end.

(** Every [pga] of the store is a number. *)
Definition numeric_store (w : World) : Prop :=
  forall areaCode s,
    areaStatus w !! areaCode = Some s -> is_number (Status.pga s) = true.

(** The request was rejected. *)
Definition rejected {B} (net : Net B) : bool :=
  match net with
  | Rejected _ => true
  | Resolved _ => false
  end.

(** The console line of a change of connectivity, if [net] is one. *)
Definition transition {B} (net : Net B) (offline : bool) : list Event :=
  match net, offline with
  | Resolved _, true => [Console NetworkRecovered]
  | Rejected aborted, false =>
      [Console (if aborted then RequestTimedOut else RequestFailed)]
  | _, _ => []
  end.

(** The messages of one broadcast of [snapshot]. *)
Definition sends (clients : option (list Client.t)) (snapshot : gmap Z Status.t)
  : list Event :=
  match clients with
  | None => []
  | Some cs =>
      (fun client => Send (Client.id client) snapshot)
        <$> filter (fun client => Client.readyState client = OPEN) cs
  end.

(** The status an area starts with (lines 69-75). *)
Definition initialStatus (area : Area.t) : Status.t :=
  {| Status.name := Area.name area;
     Status.pga := VNum (Fin 0);
     Status.intensity := VNum (Fin 0);
     Status.intensityText := VStr "0";
     Status.lastUpdate := None |}.

(** Every status is filed under a configured code, bears that area's name
    and, as long as it has no time stamp, is the one the area started with. *)
Definition store_labelled (w : World) : Prop :=
  forall areaCode s,
    areaStatus w !! areaCode = Some s ->
    exists area,
      findTargetArea areaCode = Some area /\
      Status.name s = Area.name area /\
      (Status.lastUpdate s = None -> s = initialStatus area).

(** The trace of [w'] continues the one of [w]. *)
Definition continues (w w' : World) : Prop :=
  exists events, trace w' = trace w ++ events.

(** [P] survives the writing of the status the reconciler builds. *)
Definition write_stable (P : World -> Prop) : Prop :=
  forall w areaCode area reading now,
    findTargetArea areaCode = Some area ->
    P w -> P (overwrite areaCode (statusOf area reading now) w).

(** A call whose realtime answer is OK but does not parse. *)
Definition garbledTick : Tick.t :=
  {| Tick.now := 5000;
     Tick.rts := Resolved {| ok := true; json := None |};
     Tick.processNow := 5000;
     Tick.station := Rejected true;
     Tick.clients := None |}.

(** A call whose realtime request is answered with one reading, while one
    subscriber is ready and one is closing. *)
Definition readingTick : Tick.t :=
  {| Tick.now := 5000;
     Tick.rts := Resolved {| ok := true;
                             json := Some (Scenario.payload
                                             [("S1", Scenario.reading 5 1.2 1)]) |};
     Tick.processNow := 5001;
     Tick.station := Rejected true;
     Tick.clients := Some [ {| Client.id := 7; Client.readyState := OPEN |};
                            {| Client.id := 8; Client.readyState := 2 |} ] |}.

(** ** Facts about the number fragment *)

Section NumberFacts.

Lemma lt_Fin_true a b : lt (Fin a) (Fin b) = true <-> (a < b)%Q.
Proof.
  simpl. rewrite negb_true_iff, <- not_true_iff_false, Qle_bool_iff.
  split; [apply Qnot_le_lt | apply Qlt_not_le].
Qed.

Lemma lt_Fin_false a b : lt (Fin a) (Fin b) = false <-> (b <= a)%Q.
Proof. simpl. rewrite negb_false_iff. apply Qle_bool_iff. Qed.

Lemma le_Fin_true a b : le (Fin a) (Fin b) = true <-> (a <= b)%Q.
Proof. apply Qle_bool_iff. Qed.

Lemma le_int a b : le (int a) (int b) = true <-> (a <= b)%Z.
Proof. unfold int. now rewrite le_Fin_true, <- Zle_Qle. Qed.

Lemma lt_int a b : lt (int a) (int b) = true <-> (a < b)%Z.
Proof. unfold int. now rewrite lt_Fin_true, <- Zlt_Qlt. Qed.

(** [Math.round] returns the integer [k] with [k - 1/2 <= q < k + 1/2]. *)
Lemma round_nearest q :
  let k := Qfloor (q + (1 # 2)) in
  (inject_Z k - (1 # 2) <= q /\ q < inject_Z k + (1 # 2))%Q.
Proof.
  intros k. pose proof (Qfloor_le (q + (1 # 2))) as Hlo.
  pose proof (Qlt_floor (q + (1 # 2))) as Hhi. fold k in Hlo, Hhi.
  rewrite inject_Z_plus in Hhi. change (inject_Z 1) with 1%Q in Hhi.
  split; lra.
Qed.

Lemma round_below q (k : Z) :
  (q + (1 # 2) < inject_Z k)%Q -> (Qfloor (q + (1 # 2)) < k)%Z.
Proof.
  intros H. rewrite Zlt_Qlt.
  eapply Qle_lt_trans; [apply Qfloor_le | exact H].
Qed.

Lemma round_above q (k : Z) :
  (inject_Z k <= q + (1 # 2))%Q -> (k <= Qfloor (q + (1 # 2)))%Z.
Proof.
  intros H. rewrite <- (Qfloor_Z k). now apply Qfloor_resp_le.
Qed.

End NumberFacts.

(** ** Intensity model: threshold table, monotonicity, text scale *)

Section IntensityFacts.

Local Ltac cmp x c :=
  let E := fresh "E" in
  destruct (lt x (Fin c)) eqn:E;
  [ try apply lt_Fin_true in E | try apply lt_Fin_false in E ].

(** The integer level of a finite input, by the interval it falls in. *)
Lemma intensityFloatToInt_Fin q :
  exists k : Z,
    intensityFloatToInt (Fin q) = int k /\
    ( ((q < 0)%Q /\ k = 0%Z) \/
      ((0 <= q)%Q /\ (q < 4.5)%Q /\ k = Qfloor (q + (1 # 2)) /\ (0 <= k <= 4)%Z) \/
      ((4.5 <= q)%Q /\ (q < 5)%Q /\ k = 5%Z) \/
      ((5 <= q)%Q /\ (q < 5.5)%Q /\ k = 6%Z) \/
      ((5.5 <= q)%Q /\ (q < 6)%Q /\ k = 7%Z) \/
      ((6 <= q)%Q /\ (q < 6.5)%Q /\ k = 8%Z) \/
      ((6.5 <= q)%Q /\ k = 9%Z) ).
Proof.
  unfold intensityFloatToInt.
  cmp (Fin q) 0%Q.
  { exists 0%Z. split; [reflexivity | tauto]. }
  cmp (Fin q) 4.5%Q.
  { exists (Qfloor (q + (1 # 2))). split; [reflexivity |].
    assert (0 <= Qfloor (q + (1 # 2)))%Z
      by (apply round_above; unfold inject_Z; lra).
    assert (Qfloor (q + (1 # 2)) < 5)%Z
      by (apply round_below; unfold inject_Z; lra).
    right; left. repeat split; try assumption; lia. }
  cmp (Fin q) 5%Q.
  { exists 5%Z. split; [reflexivity | tauto]. }
  cmp (Fin q) 5.5%Q.
  { exists 6%Z. split; [reflexivity | tauto]. }
  cmp (Fin q) 6%Q.
  { exists 7%Z. split; [reflexivity | tauto]. }
  cmp (Fin q) 6.5%Q.
  { exists 8%Z. split; [reflexivity | tauto]. }
  exists 9%Z. split; [reflexivity | tauto].
Qed.

Local Ltac levels H :=
  destruct H as [[? ->] | [(? & ? & -> & ?) | [(? & ? & ->) | [(? & ? & ->) |
                [(? & ? & ->) | [(? & ? & ->) | [? ->]]]]]]].

(** C3: [intensityFloatToInt] reproduces the threshold table: below 0 it
    returns 0; otherwise below 4.5 the nearest integer (the [k] with
    [k - 1/2 <= x < k + 1/2]); otherwise below 5 it returns 5, below 5.5
    it returns 6, below 6 it returns 7, below 6.5 it returns 8, and 9 in
    every other case; together with the twelve listed values. *)
Theorem intensityFloatToInt_table :
  (forall x : number,
      (lt x (Fin 0) = true -> intensityFloatToInt x = int 0) /\
      (lt x (Fin 0) = false -> lt x (Fin 4.5) = true ->
       exists (q : Q) (k : Z),
         x = Fin q /\ intensityFloatToInt x = int k /\
         (inject_Z k - (1 # 2) <= q)%Q /\ (q < inject_Z k + (1 # 2))%Q) /\
      (lt x (Fin 4.5) = false -> lt x (Fin 5) = true ->
       intensityFloatToInt x = int 5) /\
      (lt x (Fin 5) = false -> lt x (Fin 5.5) = true ->
       intensityFloatToInt x = int 6) /\
      (lt x (Fin 5.5) = false -> lt x (Fin 6) = true ->
       intensityFloatToInt x = int 7) /\
      (lt x (Fin 6) = false -> lt x (Fin 6.5) = true ->
       intensityFloatToInt x = int 8) /\
      (lt x (Fin 6.5) = false -> intensityFloatToInt x = int 9)) /\
  intensityFloatToInt (Fin (-1)) = int 0 /\
  intensityFloatToInt (Fin 3.2) = int 3 /\
  intensityFloatToInt (Fin 4.49) = int 4 /\
  intensityFloatToInt (Fin 4.5) = int 5 /\
  intensityFloatToInt (Fin 4.99) = int 5 /\
  intensityFloatToInt (Fin 5.0) = int 6 /\
  intensityFloatToInt (Fin 5.49) = int 6 /\
  intensityFloatToInt (Fin 5.5) = int 7 /\
  intensityFloatToInt (Fin 5.99) = int 7 /\
  intensityFloatToInt (Fin 6.0) = int 8 /\
  intensityFloatToInt (Fin 6.49) = int 8 /\
  intensityFloatToInt (Fin 6.5) = int 9.
Proof.
  split; [| repeat split; vm_compute; reflexivity].
  intros [q | | |]; try (repeat split; intros; (reflexivity || discriminate)).
  destruct (intensityFloatToInt_Fin q) as (k & -> & Hk).
  repeat split; intros;
    repeat match goal with
      | H : lt (Fin _) (Fin _) = true |- _ => apply lt_Fin_true in H
      | H : lt (Fin _) (Fin _) = false |- _ => apply lt_Fin_false in H
      end.
  2: { exists q, k. pose proof (round_nearest q) as [Hlo Hhi].
       levels Hk; try (exfalso; lra).
       repeat split; assumption. }
  all: levels Hk; try reflexivity; exfalso; lra.
Qed.

(** C4: [intensityFloatToInt] is monotonic non-decreasing for the
    JavaScript order [<=] on its whole input domain. *)
Theorem intensityFloatToInt_monotone (x y : number) :
  le x y = true ->
  le (intensityFloatToInt x) (intensityFloatToInt y) = true.
Proof.
  destruct x as [a | | |], y as [b | | |]; try discriminate;
    try (intros _; reflexivity).
  - intros Hab. apply le_Fin_true in Hab.
    destruct (intensityFloatToInt_Fin a) as (ka & -> & Ha).
    destruct (intensityFloatToInt_Fin b) as (kb & -> & Hb).
    apply le_int.
    levels Ha; levels Hb; try lia; try (exfalso; lra).
    apply Qfloor_resp_le. lra.
  - intros _. destruct (intensityFloatToInt_Fin a) as (ka & -> & Ha).
    change (intensityFloatToInt PInf) with (int 9). apply le_int.
    levels Ha; lia.
  - intros _. destruct (intensityFloatToInt_Fin b) as (kb & -> & Hb).
    change (intensityFloatToInt NInf) with (int 0). apply le_int.
    levels Hb; lia.
Qed.

End IntensityFacts.

Lemma intensityFloatToInt_table_witness :
  exists (q : Q) (k : Z),
    Fin 3.2 = Fin q /\ intensityFloatToInt (Fin 3.2) = int k /\
    (inject_Z k - (1 # 2) <= q)%Q /\ (q < inject_Z k + (1 # 2))%Q.
Proof.
  destruct intensityFloatToInt_table as [Htable _].
  destruct (Htable (Fin 3.2)) as (_ & Hround & _).
  apply Hround; reflexivity.
Defined.

Lemma intensityFloatToInt_monotone_witness :
  le (intensityFloatToInt (Fin 4.49)) (intensityFloatToInt (Fin 4.5)) = true.
Proof. apply intensityFloatToInt_monotone. reflexivity. Defined.

(** The twelve table entries again, at the binary64 doubles the decimal
    literals denote. *)
#[warnings="-inexact-float"]
Lemma intensityFloatToInt_table_binary64 :
  map (fun f => intensityFloatToInt (of_float f))
    [(-1)%float; 3.2%float; 4.49%float; 4.5%float; 4.99%float; 5.0%float;
     5.49%float; 5.5%float; 5.99%float; 6.0%float; 6.49%float; 6.5%float]
  = map int [0; 3; 4; 5; 5; 6; 6; 7; 7; 8; 8; 9]%Z.
Proof. vm_compute. reflexivity. Qed.

(** Unfolding of the monad's operations in a goal. *)
Tactic Notation "run_monad" :=
  cbv beta iota zeta delta
    [bind ret get modify throw try_catch emit set_isOffline set_areaStatus
     set_stationInfo begin_request fetchData parse].

Tactic Notation "run_monad" "in" hyp(H) :=
  cbv beta iota zeta delta
    [bind ret get modify throw try_catch emit set_isOffline set_areaStatus
     set_stationInfo begin_request fetchData parse] in H.

(** ** Text scale *)

(** C5, as the code has it: for an integer [k] with [0 <= k <= 9],
    [intensityToText k] is the [k]-th entry of the ten-entry scale
    0, 1, 2, 3, 4, 5⁻, 5⁺, 6⁻, 6⁺, 7 (the signs are the superscript
    characters), and for an integer [k < 0] or [k > 9] it is the string 不明. *)
Theorem intensityToText_scale (k : Z) :
  ((0 <= k <= 9)%Z ->
   exists s : string,
     ["0"; "1"; "2"; "3"; "4"; "5⁻"; "5⁺"; "6⁻"; "6⁺"; "7"] !! Z.to_nat k = Some s /\
     intensityToText (int k) = VStr s) /\
  ((k < 0 \/ 9 < k)%Z -> intensityToText (int k) = VStr "不明").
Proof.
  split.
  - intros Hk.
    assert (Hcases : In k [0; 1; 2; 3; 4; 5; 6; 7; 8; 9]%Z) by (simpl; lia).
    simpl in Hcases.
    repeat (destruct Hcases as [<- | Hcases]; [eexists; split; reflexivity |]).
    destruct Hcases.
  - intros Hk. unfold intensityToText.
    destruct (ge (int k) (Fin 0)) eqn:Hge; [| reflexivity].
    destruct (lt (int k) (int (Z.of_nat (length INTENSITY_LIST)))) eqn:Hlt;
      [| reflexivity].
    apply (le_int 0 k) in Hge. apply lt_int in Hlt. simpl in Hlt. lia.
Qed.

Lemma intensityToText_scale_witness :
  exists s : string,
    ["0"; "1"; "2"; "3"; "4"; "5⁻"; "5⁺"; "6⁻"; "6⁺"; "7"] !! Z.to_nat 6 = Some s /\
    intensityToText (int 6) = VStr s.
Proof. apply (intensityToText_scale 6). lia. Defined.

(** C5 as written fails: level 5 is not the ASCII string 5- and an
    out-of-range level is not the string unknown. *)
Lemma intensityToText_not_ascii :
  intensityToText (int 5) <> VStr "5-" /\
  intensityToText (int 10) <> VStr "unknown".
Proof. split; vm_compute; discriminate. Qed.

(** ** Station metadata cache *)

(** C1, as the code has it: when the cache is cold or expired and the
    request fails or is answered with a non-OK response, [getStationInfo]
    returns [null] whether or not a directory is cached, does not throw, and
    leaves the cached directory, its time stamp and the area store as they
    were. *)
Theorem getStationInfo_failure (now : Z) (net : Net StationInfo) (w : World) :
  expired now w ->
  failed net = true ->
  exists w' : World,
    getStationInfo now net w = (Ok None, w') /\
    stationInfo w' = stationInfo w /\
    lastStationInfoFetch w' = lastStationInfoFetch w /\
    areaStatus w' = areaStatus w.
Proof.
  intros Hexp Hfail. unfold getStationInfo, bind at 1, get.
  assert (Hrefresh : forall m : M (option StationInfo),
    (match stationInfo w with
     | Some cached =>
         if bool_decide (now - lastStationInfoFetch w < STATION_INFO_INTERVAL)%Z
         then ret (Some cached) else m
     | None => m
     end) w = m w).
  { intros m. destruct Hexp as [-> | Hold]; [reflexivity |].
    destruct (stationInfo w); [| reflexivity].
    rewrite bool_decide_eq_false_2 by lia. reflexivity. }
  rewrite Hrefresh. clear Hrefresh Hexp.
  destruct net as [aborted | r]; simpl in Hfail.
  - run_monad. simpl. destruct (isOffline w); simpl; eauto.
  - apply negb_true_iff in Hfail. run_monad. simpl.
    destruct (isOffline w); simpl; rewrite Hfail; simpl; eauto.
Qed.

Lemma getStationInfo_failure_witness :
  exists w' : World,
    getStationInfo 300000 (Rejected true) staleWorld = (Ok None, w') /\
    stationInfo w' = stationInfo staleWorld /\
    lastStationInfoFetch w' = lastStationInfoFetch staleWorld /\
    areaStatus w' = areaStatus staleWorld.
Proof.
  apply getStationInfo_failure; [right; vm_compute; discriminate | reflexivity].
Defined.

(** C1 as written fails: with a directory in the cache, an expired interval
    and a request that times out, the call returns [null], not the cached
    directory. *)
Lemma getStationInfo_drops_stale_cache :
  stationInfo staleWorld = Some staleDirectory /\
  fst (getStationInfo 300000 (Rejected true) staleWorld) = Ok None /\
  fst (getStationInfo 300000 (Rejected true) staleWorld) <> Ok (Some staleDirectory).
Proof.
  split; [reflexivity |].
  assert (H : fst (getStationInfo 300000 (Rejected true) staleWorld) = Ok None)
    by reflexivity.
  split; [exact H | rewrite H; discriminate].
Qed.

(** ** Properties kept by every operation *)

Lemma findTargetArea_targets areaCode area :
  findTargetArea areaCode = Some area -> areaCode ∈ targets.
Proof.
  unfold findTargetArea. intros H. apply find_some in H as [Hin Heq].
  apply Z.eqb_eq in Heq. subst areaCode. unfold targets.
  apply elem_of_list_to_set, list_elem_of_fmap. exists area.
  split; [reflexivity | now apply list_elem_of_In].
Qed.

Create HintDb frame.

Section Preservation.

Context {P : World -> Prop}.

Lemma preserves_ret {A} (a : A) : preserves P (ret a).
Proof. intros w r w' HP [= <- <-]. exact HP. Qed.

Lemma preserves_throw {A} e : preserves P (@throw A e).
Proof. intros w r w' HP [= <- <-]. exact HP. Qed.

Lemma preserves_get : preserves P get.
Proof. intros w r w' HP [= <- <-]. exact HP. Qed.

Lemma preserves_bind {A B} (m : M A) (k : A -> M B) :
  preserves P m -> (forall a, preserves P (k a)) -> preserves P (bind m k).
Proof.
  intros Hm Hk w r w' HP. unfold bind.
  destruct (m w) as [[a | e] w1] eqn:Em.
  - intros Hr. exact (Hk a _ _ _ (Hm _ _ _ HP Em) Hr).
  - intros [= <- <-]. exact (Hm _ _ _ HP Em).
Qed.

Lemma preserves_try_catch {A} (m : M A) (handler : Exn -> M A) :
  preserves P m -> (forall e, preserves P (handler e)) ->
  preserves P (try_catch m handler).
Proof.
  intros Hm Hh w r w' HP. unfold try_catch.
  destruct (m w) as [[a | e] w1] eqn:Em.
  - intros [= <- <-]. exact (Hm _ _ _ HP Em).
  - intros Hr. exact (Hh e _ _ _ (Hm _ _ _ HP Em) Hr).
Qed.

Lemma preserves_forEach {A} (f : A -> M unit) (l : list A) :
  (forall x, preserves P (f x)) -> preserves P (forEach f l).
Proof.
  intros Hf. induction l as [| x l IH]; simpl.
  - apply preserves_ret.
  - apply preserves_bind; [apply Hf | intros _; exact IH].
Qed.

Lemma preserves_if {A} (b : bool) (m1 m2 : M A) :
  preserves P m1 -> preserves P m2 -> preserves P (if b then m1 else m2).
Proof. destruct b; trivial. Qed.

Hypothesis HP : bookkeeping_free P.

Lemma preserves_emit e : preserves P (emit e).
Proof.
  intros w r w' Hw [= <- <-].
  exact (HP w (isOffline w) (stationInfo w) (lastStationInfoFetch w) [e] Hw).
Qed.

Lemma preserves_set_isOffline b : preserves P (set_isOffline b).
Proof.
  intros w r w' Hw [= <- <-].
  pose proof (HP w b (stationInfo w) (lastStationInfoFetch w) [] Hw) as H.
  now rewrite app_nil_r in H.
Qed.

Lemma preserves_set_stationInfo si now : preserves P (set_stationInfo si now).
Proof.
  intros w r w' Hw [= <- <-].
  pose proof (HP w (isOffline w) (Some si) now [] Hw) as H.
  now rewrite app_nil_r in H.
Qed.

Lemma preserves_parse {B} (r : Response B) : preserves P (parse r).
Proof.
  unfold parse. destruct (json r); [apply preserves_ret | apply preserves_throw].
Qed.

Local Hint Resolve preserves_ret preserves_throw preserves_get preserves_emit
  preserves_set_isOffline preserves_set_stationInfo preserves_parse : frame.
Local Hint Extern 2 (preserves _ (bind _ _)) =>
  apply preserves_bind; [| intros ?] : frame.
Local Hint Extern 2 (preserves _ (if _ then _ else _)) =>
  apply preserves_if : frame.
Local Hint Extern 2 (preserves _ (match ?x with _ => _ end)) =>
  destruct x : frame.

Lemma preserves_fetchData {B} url (net : Net B) : preserves P (fetchData url net).
Proof. unfold fetchData. auto 10 with frame. Qed.

Lemma preserves_getStationInfo now net : preserves P (getStationInfo now net).
Proof.
  pose proof (@preserves_fetchData StationInfo).
  unfold getStationInfo. auto 12 with frame.
Qed.

Lemma preserves_displayAreaStatus : preserves P displayAreaStatus.
Proof. unfold displayAreaStatus. auto 10 with frame. Qed.

Lemma preserves_broadcast clients : preserves P (broadcast clients).
Proof.
  unfold broadcast. destruct clients; auto with frame.
  apply preserves_forEach. intros c. auto 10 with frame.
Qed.

Lemma preserves_logUpdate area : preserves P (logUpdate area).
Proof. unfold logUpdate. auto with frame. Qed.

Hypothesis HP_overwrite : overwrite_stable P.

Lemma preserves_set_areaStatus areaCode s :
  areaCode ∈ targets -> preserves P (set_areaStatus areaCode s).
Proof. intros Hc w r w' Hw [= <- <-]. now apply HP_overwrite. Qed.

Lemma preserves_processEntry si now entry acc :
  preserves P (processEntry si now entry acc).
Proof.
  unfold processEntry. destruct entry as [stationId stationData].
  destruct (si !! stationId) as [station |]; auto with frame.
  destruct (Station.info station) as [info |]; auto with frame.
  destruct (last info) as [[latestInfo |] |]; auto with frame.
  destruct (findTargetArea (Info.code latestInfo)) as [area |] eqn:Ea;
    auto with frame.
  pose proof (preserves_set_areaStatus (Info.code latestInfo)) as Hset.
  specialize (fun s => Hset s (findTargetArea_targets _ _ Ea)).
  auto 12 with frame.
Qed.

Lemma preserves_forEntries si now entries acc :
  preserves P (forEntries si now entries acc).
Proof.
  revert acc. induction entries as [| e rest IH]; intros acc; simpl.
  - apply preserves_ret.
  - apply preserves_bind; [apply preserves_processEntry | intros a; apply IH].
Qed.

Lemma preserves_processTargetAreaData data now net :
  preserves P (processTargetAreaData data now net).
Proof.
  pose proof preserves_getStationInfo. pose proof preserves_forEntries.
  unfold processTargetAreaData. auto 12 with frame.
Qed.

Lemma preserves_handleResponse tick rtsResponse :
  preserves P (handleResponse tick rtsResponse).
Proof.
  pose proof preserves_processTargetAreaData.
  pose proof preserves_displayAreaStatus. pose proof preserves_broadcast.
  unfold handleResponse.
  destruct rtsResponse as [r |]; [| auto with frame].
  apply preserves_if; [| auto with frame].
  do 4 (apply preserves_bind; [now auto with frame | intros ?]).
  destruct a0; [| auto with frame].
  apply preserves_forEach. intros u. apply preserves_logUpdate.
Qed.

Lemma preserves_heartbeat : preserves P heartbeat.
Proof.
  pose proof preserves_displayAreaStatus. unfold heartbeat. auto 10 with frame.
Qed.

Lemma preserves_fetchCycle tick : preserves P (fetchCycle tick).
Proof.
  unfold fetchCycle.
  apply preserves_bind; [apply preserves_fetchData | intros rtsResponse].
  apply preserves_bind; [apply preserves_handleResponse | intros _].
  apply preserves_heartbeat.
Qed.

Hypothesis HP_request : forall w now, P w -> P (requested now w).

Lemma preserves_fetchRealtimeData tick : preserves P (fetchRealtimeData tick).
Proof.
  unfold fetchRealtimeData. apply preserves_bind; [auto with frame | intros w0].
  apply preserves_if; [auto with frame |].
  apply preserves_bind.
  - intros w r w' Hw [= <- <-]. now apply HP_request.
  - intros _. apply preserves_try_catch; [apply preserves_fetchCycle |].
    intros e. auto with frame.
Qed.

Lemma preserves_poll ticks : preserves P (poll ticks).
Proof. apply preserves_forEach, preserves_fetchRealtimeData. Qed.

Lemma preserves_main now net ticks : preserves P (main now net ticks).
Proof.
  unfold main.
  apply preserves_bind; [apply preserves_getStationInfo | intros _].
  apply preserves_bind; [apply preserves_displayAreaStatus | intros _].
  apply preserves_poll.
Qed.

Lemma preserves_fetched {B} (net : Net B) : preserves P (fetched net).
Proof. unfold fetched. auto 10 with frame. Qed.

Lemma preserves_reconcile time entries now si :
  preserves P (reconcile time entries now si).
Proof.
  pose proof preserves_forEntries. unfold reconcile. auto 10 with frame.
Qed.

Lemma preserves_publish tick targetAreaData : preserves P (publish tick targetAreaData).
Proof.
  unfold publish.
  apply preserves_bind; [apply preserves_displayAreaStatus | intros _].
  apply preserves_bind; [apply preserves_broadcast | intros _].
  destruct targetAreaData; [| auto with frame].
  apply preserves_forEach, preserves_logUpdate.
Qed.

Lemma preserves_settles {A} (rest : M A) returned threw :
  preserves P rest -> preserves P (settles rest returned threw).
Proof.
  intros Hrest. unfold settles. apply preserves_try_catch; auto with frame.
Qed.

Lemma preserves_advance tick a : preserves P (advance tick a).
Proof.
  destruct a as [| response | r | time entries | time entries response
                 | time entries r | time entries si | e | targetAreaData | e];
    cbn [advance].
  - apply preserves_bind; [apply preserves_fetched | auto with frame].
  - destruct response as [r |]; [destruct (ok r) |]; auto with frame.
  - apply preserves_bind; [apply preserves_parse | intros [d |]]; [| auto with frame].
    destruct (Rts.station d) as [entries |]; [| auto with frame].
    apply preserves_bind; [apply preserves_get | intros w0].
    destruct (stationInfo w0) as [cached |]; [destruct (bool_decide _) |];
      auto with frame.
  - apply preserves_bind; [apply preserves_fetched | auto with frame].
  - destruct response as [r |]; [destruct (ok r) |]; auto with frame.
  - apply preserves_settles. auto 10 with frame.
  - apply preserves_settles, preserves_reconcile.
  - auto with frame.
  - apply preserves_bind; [apply preserves_publish | auto with frame].
  - auto with frame.
Qed.

Lemma preserves_resume tick a : preserves P (resume tick a).
Proof.
  unfold resume. apply preserves_try_catch.
  - apply preserves_bind; [apply preserves_advance | intros [a' |]].
    + auto with frame.
    + apply preserves_bind; [apply preserves_heartbeat | intros _; auto with frame].
  - intros e. auto with frame.
Qed.

Lemma preserves_start tick : preserves P (start tick).
Proof.
  unfold start. apply preserves_bind; [auto with frame | intros w0].
  apply preserves_if; [auto with frame |].
  apply preserves_bind.
  - intros w r w' Hw [= <- <-]. now apply HP_request.
  - intros _. auto with frame.
Qed.

Lemma turn_keeps t st : P (fst st) -> P (fst (turn t st)).
Proof.
  destruct st as [w flights]. cbn [fst]. intros Hw.
  destruct t as [tick | n]; cbn [turn].
  - destruct (start tick w) as [r w'] eqn:Hrun.
    pose proof (preserves_start tick w r w' Hw Hrun).
    destruct r as [[a |] | e]; assumption.
  - destruct (flights !! n) as [[tick a] |]; [| exact Hw].
    destruct (resume tick a w) as [r w'] eqn:Hrun.
    pose proof (preserves_resume tick a w r w' Hw Hrun).
    destruct r as [[a' |] | e]; assumption.
Qed.

Lemma eventLoop_keeps turns st : P (fst st) -> P (fst (eventLoop turns st)).
Proof.
  unfold eventLoop. revert st. induction turns as [| t turns IH]; intros st Hst.
  - exact Hst.
  - cbn [foldl]. apply IH, turn_keeps, Hst.
Qed.

End Preservation.

(** ** Area store invariant *)

Lemma store_invariant_bookkeeping : bookkeeping_free store_invariant.
Proof. unfold bookkeeping_free, store_invariant. trivial. Qed.

Lemma same_counter_bookkeeping n :
  bookkeeping_free (fun w => requestCounter w = n).
Proof. unfold bookkeeping_free. trivial. Qed.

Lemma same_counter_overwrite n :
  overwrite_stable (fun w => requestCounter w = n).
Proof. unfold overwrite_stable. trivial. Qed.

Lemma store_invariant_overwrite : overwrite_stable store_invariant.
Proof.
  unfold overwrite_stable, store_invariant. simpl.
  intros w areaCode s Hc Hw. rewrite dom_insert_L, Hw.
  apply subseteq_union_1_L, singleton_subseteq_l, Hc.
Qed.

(** The operations that do not write the store leave it as it is. *)
Lemma same_store_bookkeeping store :
  bookkeeping_free (fun w => areaStatus w = store).
Proof. unfold bookkeeping_free. trivial. Qed.

Lemma initialAreaStatus_dom : dom initialAreaStatus = targets.
Proof.
  unfold initialAreaStatus, targets. simpl.
  rewrite !dom_insert_L, dom_empty_L. set_solver.
Qed.

(** [fetchRealtimeData] catches what its cycle throws. *)
Lemma fetchRealtimeData_returns tick w :
  exists w', fetchRealtimeData tick w = (Ok tt, w').
Proof.
  unfold fetchRealtimeData. run_monad.
  destruct (bool_decide _); [eauto |].
  match goal with |- context [fetchCycle tick ?w0] =>
    destruct (fetchCycle tick w0) as [[[] | e] w1] end; eauto.
Qed.

(** The timer runs every call: no call stops the ones after it. *)
Lemma poll_runs_every_tick ticks w :
  poll ticks w = (Ok tt, foldl (fun w tick => snd (fetchRealtimeData tick w)) w ticks).
Proof.
  unfold poll. revert w. induction ticks as [| tick ticks IH]; intros w; simpl.
  - reflexivity.
  - unfold bind at 1. destruct (fetchRealtimeData_returns tick w) as [w' ->].
    simpl. apply IH.
Qed.

(** C8: the store starts with exactly one status per configured area, and
    after the start-up and any number of polling cycles, on any inputs, its
    keys are still exactly the configured area codes, one status each; this
    for calls that follow one another and for calls of the timer that
    overlap in any way. *)
Theorem areaStatus_one_entry_per_area :
  (dom (areaStatus initialWorld) = targets /\
   size (areaStatus initialWorld) = length CONFIG.targetAreas) /\
  (forall ticks : list Tick.t,
      let w := snd (poll ticks initialWorld) in
      dom (areaStatus w) = targets /\
      size (areaStatus w) = length CONFIG.targetAreas) /\
  (forall (now : Z) (net : Net StationInfo) (ticks : list Tick.t),
      let w := snd (main now net ticks initialWorld) in
      dom (areaStatus w) = targets /\
      size (areaStatus w) = length CONFIG.targetAreas) /\
  (forall (now : Z) (net : Net StationInfo) (ticks : list Tick.t)
          (turns : list Turn),
      let w := fst (eventLoop turns (snd (main now net ticks initialWorld), [])) in
      dom (areaStatus w) = targets /\
      size (areaStatus w) = length CONFIG.targetAreas).
Proof.
  assert (Hsize : forall w, dom (areaStatus w) = targets ->
                            size (areaStatus w) = length CONFIG.targetAreas).
  { intros w Hw. rewrite <- size_dom, Hw. reflexivity. }
  assert (H0 : store_invariant initialWorld) by apply initialAreaStatus_dom.
  split; [split; [exact H0 | exact (Hsize _ H0)] |].
  split.
  - intros ticks w.
    assert (Hw : store_invariant w).
    { eapply (preserves_poll (P := store_invariant));
        [apply store_invariant_bookkeeping | apply store_invariant_overwrite
        | trivial | exact H0 | apply surjective_pairing]. }
    split; [exact Hw | exact (Hsize _ Hw)].
  - assert (Hmain : forall now net ticks,
               store_invariant (snd (main now net ticks initialWorld))).
    { intros now net ticks.
      eapply (preserves_main (P := store_invariant));
        [apply store_invariant_bookkeeping | apply store_invariant_overwrite
        | trivial | exact H0 | apply surjective_pairing]. }
    split.
    + intros now net ticks w. split; [apply Hmain | apply Hsize, Hmain].
    + intros now net ticks turns w.
      assert (Hw : store_invariant w).
      { apply (eventLoop_keeps (P := store_invariant));
          [apply store_invariant_bookkeeping | apply store_invariant_overwrite
          | trivial | apply Hmain]. }
      split; [exact Hw | exact (Hsize _ Hw)].
Qed.

(** ** Reconciler: which entries reach the store *)

Lemma ignored_currentArea si stationId :
  ignored si stationId -> currentArea si stationId = None.
Proof.
  unfold currentArea.
  intros [-> | [(station & -> & [-> | ->]) | (station & info & latestInfo & -> & -> & -> & Hc)]];
    try reflexivity.
  destruct (findTargetArea (Info.code latestInfo)) as [area |] eqn:Ea; [| reflexivity].
  apply findTargetArea_targets in Ea. contradiction.
Qed.

Lemma ignored_nullInfo si stationId :
  ignored si stationId -> nullInfo si stationId = false.
Proof.
  unfold nullInfo.
  intros [-> | [(station & -> & [-> | ->]) | (station & info & latestInfo & -> & -> & -> & Hc)]];
    reflexivity.
Qed.

Lemma currentArea_nullInfo si stationId latestInfo targetArea :
  currentArea si stationId = Some (latestInfo, targetArea) ->
  nullInfo si stationId = false.
Proof.
  unfold currentArea, nullInfo.
  destruct (si !! stationId) as [station |]; [| reflexivity].
  destruct (Station.info station) as [info |]; [| reflexivity].
  destruct (last info) as [[latest |] |]; [reflexivity | discriminate | reflexivity].
Qed.

(** The loop body when the station has no current configured area. *)
Lemma processEntry_skip si now stationId stationData updatedAreas :
  nullInfo si stationId = false ->
  currentArea si stationId = None ->
  processEntry si now (stationId, stationData) updatedAreas = ret updatedAreas.
Proof.
  unfold nullInfo, currentArea, processEntry.
  destruct (si !! stationId) as [station |]; [| reflexivity].
  destruct (Station.info station) as [info |]; [| reflexivity].
  destruct (last info) as [[latestInfo |] |]; [| discriminate | reflexivity].
  destruct (findTargetArea (Info.code latestInfo)); [discriminate | reflexivity].
Qed.

(** The loop body when the last element of the station's history is
    [null] (line 240). *)
Lemma processEntry_null si now stationId stationData updatedAreas :
  nullInfo si stationId = true ->
  processEntry si now (stationId, stationData) updatedAreas = throw TypeError.
Proof.
  unfold nullInfo, processEntry.
  destruct (si !! stationId) as [station |]; [| discriminate].
  destruct (Station.info station) as [info |]; [| discriminate].
  destruct (last info) as [[latestInfo |] |]; [discriminate | reflexivity | discriminate].
Qed.

(** The loop body when the station has a current configured area. *)
Lemma processEntry_monitored si now stationId stationData updatedAreas latestInfo targetArea :
  currentArea si stationId = Some (latestInfo, targetArea) ->
  processEntry si now (stationId, stationData) updatedAreas =
  match stationData with
  | None => throw TypeError
  | Some reading =>
      let* w := get in
      match areaStatus w !! Info.code latestInfo with
      | None => throw TypeError
      | Some current =>
          if needsUpdate current reading then
            set_areaStatus (Info.code latestInfo) (statusOf targetArea reading now) ;;
            match Reading.i reading with
            | VNum x =>
                ret (updatedAreas ++ [updatedOf stationId latestInfo targetArea reading x])
            | _ => throw TypeError
            end
          else ret updatedAreas
      end
  end.
Proof.
  unfold currentArea, processEntry.
  destruct (si !! stationId) as [station |]; [| discriminate].
  destruct (Station.info station) as [info |]; [| discriminate].
  destruct (last info) as [[latest |] |]; [| discriminate | discriminate].
  destruct (findTargetArea (Info.code latest)) as [area |]; [| discriminate].
  intros [= -> ->]. reflexivity.
Qed.

Lemma currentArea_findTargetArea si stationId latestInfo targetArea :
  currentArea si stationId = Some (latestInfo, targetArea) ->
  findTargetArea (Info.code latestInfo) = Some targetArea.
Proof.
  unfold currentArea.
  destruct (si !! stationId) as [station |]; [| discriminate].
  destruct (Station.info station) as [info |]; [| discriminate].
  destruct (last info) as [[latest |] |]; [| discriminate | discriminate].
  destruct (findTargetArea (Info.code latest)) as [area |] eqn:Ea; [| discriminate].
  now intros [= <- <-].
Qed.

Lemma currentArea_targets si stationId latestInfo targetArea :
  currentArea si stationId = Some (latestInfo, targetArea) ->
  Info.code latestInfo ∈ targets.
Proof.
  unfold currentArea.
  destruct (si !! stationId) as [station |]; [| discriminate].
  destruct (Station.info station) as [info |]; [| discriminate].
  destruct (last info) as [[latest |] |]; [| discriminate | discriminate].
  destruct (findTargetArea (Info.code latest)) as [area |] eqn:Ea; [| discriminate].
  intros [= <- _]. exact (findTargetArea_targets _ _ Ea).
Qed.

Lemma forEntries_app si now before after updatedAreas w :
  forEntries si now (before ++ after) updatedAreas w =
  (let* updatedAreas' := forEntries si now before updatedAreas in
   forEntries si now after updatedAreas') w.
Proof.
  revert updatedAreas w. induction before as [| e before IH]; intros acc w; simpl.
  - reflexivity.
  - unfold bind in *. destruct (processEntry si now e acc w) as [[acc' | ex] w1].
    + apply IH.
    + reflexivity.
Qed.

(** What [processTargetAreaData] does once [getStationInfo] has answered. *)
Lemma processTargetAreaData_with_info si time entries now net w w0 :
  getStationInfo now net w = (Ok (Some si), w0) ->
  processTargetAreaData (Some {| Rts.time := time; Rts.station := Some entries |}) now net w =
  match forEntries si now entries [] w0 with
  | (Ok updatedAreas, w') =>
      (Ok (Some {| Result.time := time_or time now;
                   Result.updatedAreas := updatedAreas |}), w')
  | (Throw e, w') => (Throw e, w')
  end.
Proof.
  intros Hsi. unfold processTargetAreaData. simpl. unfold bind at 1.
  rewrite Hsi. unfold bind, ret.
  destruct (forEntries si now entries [] w0) as [[acc | e] w']; reflexivity.
Qed.

(** C7: an entry whose station is missing from the directory, or has no
    info history, or whose current area code is not a configured one, is
    skipped: the loop body leaves the whole state and the changed-list as
    they are, and the reconciler's outcome is the one of the payload without
    that entry. *)
Theorem reconciler_ignores (si : StationInfo) (stationId : string) :
  ignored si stationId ->
  (forall now stationData updatedAreas w,
      processEntry si now (stationId, stationData) updatedAreas w
      = (Ok updatedAreas, w)) /\
  (forall now net time before stationData after w w0,
      getStationInfo now net w = (Ok (Some si), w0) ->
      processTargetAreaData
        (Some {| Rts.time := time;
                 Rts.station := Some (before ++ (stationId, stationData) :: after) |})
        now net w
      = processTargetAreaData
          (Some {| Rts.time := time; Rts.station := Some (before ++ after) |})
          now net w).
Proof.
  intros Hign. pose proof (ignored_nullInfo _ _ Hign) as Hnull.
  apply ignored_currentArea in Hign.
  assert (Hskip : forall now stationData updatedAreas w,
             processEntry si now (stationId, stationData) updatedAreas w
             = (Ok updatedAreas, w)).
  { intros. rewrite processEntry_skip by assumption. reflexivity. }
  split; [exact Hskip |].
  intros now net time before stationData after w w0 Hsi.
  rewrite !(processTargetAreaData_with_info si) with (w0 := w0) by assumption.
  rewrite !forEntries_app. unfold bind.
  destruct (forEntries si now before [] w0) as [[acc | e] w1]; [| reflexivity].
  cbn [forEntries]. unfold bind. rewrite Hskip. reflexivity.
Qed.

Lemma reconciler_ignores_witness :
  processEntry Scenario.directory 1000 ("S4", Scenario.reading 5 1.2 1) [] Scenario.warm
  = (Ok [], Scenario.warm) /\
  processTargetAreaData
    (Scenario.payload [("S1", Scenario.reading 5 1.2 1); ("S4", Scenario.reading 9 3 3)])
    1000 (Rejected false) Scenario.warm
  = processTargetAreaData
      (Scenario.payload [("S1", Scenario.reading 5 1.2 1)])
      1000 (Rejected false) Scenario.warm.
Proof.
  assert (Hign : ignored Scenario.directory "S4").
  { right; right.
    exists (Scenario.station 999), (default [] (Station.info (Scenario.station 999))),
      {| Info.code := 999; Info.lat := Fin 25; Info.lon := Fin 121.5 |}.
    repeat split; try reflexivity.
    apply (bool_decide_unpack _). vm_compute. exact I. }
  destruct (reconciler_ignores Scenario.directory "S4" Hign) as [Hbody Hrun].
  split.
  - apply Hbody.
  - apply (Hrun 1000%Z (Rejected false) (Some (int 1700000000000))
             [("S1", Scenario.reading 5 1.2 1)] (Scenario.reading 9 3 3) []
             Scenario.warm Scenario.warm).
    reflexivity.
Defined.

(** The loop body on a reading of a station in a configured area, run from
    the state [w]. *)
Lemma processEntry_run si now stationId reading updatedAreas latestInfo targetArea w :
  currentArea si stationId = Some (latestInfo, targetArea) ->
  processEntry si now (stationId, Some reading) updatedAreas w =
  match areaStatus w !! Info.code latestInfo with
  | None => (Throw TypeError, w)
  | Some current =>
      if needsUpdate current reading then
        (match Reading.i reading with
         | VNum x =>
             Ok (updatedAreas ++ [updatedOf stationId latestInfo targetArea reading x])
         | _ => Throw TypeError
         end,
         overwrite (Info.code latestInfo) (statusOf targetArea reading now) w)
      else (Ok updatedAreas, w)
  end.
Proof.
  intros Hc. rewrite (processEntry_monitored _ _ _ _ _ _ _ Hc). run_monad.
  destruct (areaStatus w !! Info.code latestInfo) as [current |]; [| reflexivity].
  destruct (needsUpdate current reading); [| reflexivity].
  destruct (Reading.i reading); reflexivity.
Qed.

(** ** Reconciler: when it completes *)

Lemma processEntry_completes si now entry updatedAreas w :
  store_invariant w ->
  numeric_reading si entry ->
  exists updatedAreas' w',
    processEntry si now entry updatedAreas w = (Ok updatedAreas', w') /\
    store_invariant w'.
Proof.
  intros Hw [Hnull Hnum]. destruct entry as [stationId stationData].
  cbn [fst snd] in *.
  destruct (currentArea si stationId) as [[latestInfo targetArea] |] eqn:Hc.
  - destruct Hnum as [Hnone | (reading & x & Hsd & Hi)]; [congruence |].
    subst stationData.
    assert (Hin : Info.code latestInfo ∈ targets) by exact (currentArea_targets _ _ _ _ Hc).
    rewrite (processEntry_run _ _ _ _ _ _ _ _ Hc).
    rewrite <- Hw in Hin. apply elem_of_dom in Hin as [current ->].
    destruct (needsUpdate current reading); [| eauto].
    rewrite Hi. eexists _, _. split; [reflexivity |].
    apply store_invariant_overwrite; [| exact Hw].
    now apply (currentArea_targets _ _ _ _ Hc).
  - rewrite processEntry_skip by assumption. unfold ret. eauto.
Qed.

Lemma forEntries_completes si now entries updatedAreas w :
  store_invariant w ->
  Forall (numeric_reading si) entries ->
  exists updatedAreas' w',
    forEntries si now entries updatedAreas w = (Ok updatedAreas', w').
Proof.
  revert updatedAreas w. induction entries as [| entry rest IH];
    intros acc w Hw Hall; cbn [forEntries].
  - unfold ret. eauto.
  - apply Forall_cons in Hall as [Hentry Hrest].
    destruct (processEntry_completes si now entry acc w Hw Hentry)
      as (acc1 & w1 & Hstep & Hw1).
    unfold bind. rewrite Hstep. now apply IH.
Qed.

(** C2, as the code has it: an entry whose station is missing from the
    directory or has no info history is skipped; an entry of a station
    whose history ends in [null] raises a [TypeError], whatever its reading;
    a reading without [pga] is not skipped but handled as the reading with
    [pga] 0; and when no station of the payload has a history ending in
    [null] and every entry of a station in a configured area is an object
    with a numeric [i], the reconciler returns its result without
    raising. *)
Theorem reconciler_completes (si : StationInfo) :
  (forall now stationId stationData updatedAreas w,
      (si !! stationId = None \/
       exists station, si !! stationId = Some station /\
         (Station.info station = None \/ Station.info station = Some [])) ->
      processEntry si now (stationId, stationData) updatedAreas w
      = (Ok updatedAreas, w)) /\
  (forall now stationId stationData updatedAreas w,
      nullInfo si stationId = true ->
      processEntry si now (stationId, stationData) updatedAreas w
      = (Throw TypeError, w)) /\
  (forall now stationId reading updatedAreas w,
      Reading.pga reading = VUndefined ->
      processEntry si now (stationId, Some reading) updatedAreas w
      = processEntry si now
          (stationId, Some {| Reading.pga := VNum (Fin 0);
                              Reading.i := Reading.i reading;
                              Reading.I := Reading.I reading |})
          updatedAreas w) /\
  (forall now net time entries w w0,
      getStationInfo now net w = (Ok (Some si), w0) ->
      store_invariant w ->
      Forall (numeric_reading si) entries ->
      exists result w',
        processTargetAreaData
          (Some {| Rts.time := time; Rts.station := Some entries |}) now net w
        = (Ok (Some result), w')).
Proof.
  split; [| split; [| split]].
  - intros now stationId stationData acc w Hmal.
    assert (Hign : ignored si stationId) by (unfold ignored; tauto).
    rewrite processEntry_skip;
      [reflexivity | now apply ignored_nullInfo | now apply ignored_currentArea].
  - intros now stationId stationData acc w Hnull.
    now rewrite processEntry_null.
  - intros now stationId [pga i I] acc w Hpga. simpl in Hpga. subst pga.
    reflexivity.
  - intros now net time entries w w0 Hsi Hw Hall.
    rewrite (processTargetAreaData_with_info si) with (w0 := w0) by assumption.
    assert (Hw0 : store_invariant w0)
      by exact (preserves_getStationInfo store_invariant_bookkeeping _ _ _ _ _ Hw Hsi).
    destruct (forEntries_completes si now entries [] w0 Hw0 Hall) as (acc & w' & ->).
    eauto.
Qed.

Lemma reconciler_completes_witness :
  processEntry Scenario.directory 1000 ("S5", Scenario.reading 5 1.2 1) [] Scenario.warm
  = (Ok [], Scenario.warm) /\
  processEntry Scenario.directory 1000 ("S6", Scenario.reading 5 1.2 1) [] Scenario.warm
  = (Throw TypeError, Scenario.warm) /\
  processEntry Scenario.directory 1000
    ("S1", Some {| Reading.pga := VUndefined; Reading.i := VNum (Fin 1.2);
                   Reading.I := Some (int 1) |}) [] Scenario.warm
  = processEntry Scenario.directory 1000
      ("S1", Some {| Reading.pga := VNum (Fin 0); Reading.i := VNum (Fin 1.2);
                     Reading.I := Some (int 1) |}) [] Scenario.warm /\
  exists result w',
    processTargetAreaData
      (Some {| Rts.time := None;
               Rts.station :=
                 Some [("S1", Scenario.reading 5 1.2 1); ("S4", None);
                       ("S3", Some {| Reading.pga := VUndefined; Reading.i := VNum (Fin 0.4);
                                      Reading.I := None |})] |})
      1000 (Rejected true) Scenario.warm
    = (Ok (Some result), w').
Proof.
  destruct (reconciler_completes Scenario.directory) as (Hskip & Hnull & Hpga & Hrun).
  split; [| split; [| split]].
  - apply Hskip. right. eexists. split; [reflexivity | right; reflexivity].
  - apply Hnull. reflexivity.
  - apply (Hpga 1000%Z "S1"
             {| Reading.pga := VUndefined; Reading.i := VNum (Fin 1.2);
                Reading.I := Some (int 1) |}).
    reflexivity.
  - apply Hrun with (w0 := Scenario.warm).
    + reflexivity.
    + exact initialAreaStatus_dom.
    + constructor; [split; [reflexivity | right; eexists _, _; split; reflexivity] |].
      constructor; [split; [reflexivity | left; reflexivity] |].
      constructor; [split; [reflexivity | right; eexists _, _; split; reflexivity] |].
      constructor.
Defined.

(** C2 as written fails.  A reading without [i] in a configured area makes
    the reconciler throw, after the store has been written for it and before
    the entry that follows is looked at; a reading without [pga] is not
    skipped: the store is written for it; and a well-formed reading of a
    station whose history ends in [null] makes the reconciler throw. *)
Lemma reconciler_raises_on_missing_intensity :
  let missing_i :=
    Some {| Reading.pga := VNum (Fin 5); Reading.i := VUndefined; Reading.I := Some (int 1) |} in
  let missing_pga :=
    Some {| Reading.pga := VUndefined; Reading.i := VNum (Fin 1.2); Reading.I := Some (int 1) |} in
  let run entries :=
    processTargetAreaData (Scenario.payload entries) 1000 (Rejected true) Scenario.warm in
  run [("S1", missing_i); ("S3", Scenario.reading 9 3 3)]
  = (Throw TypeError,
     overwrite 106 {| Status.name := "臺北市大安區";
                      Status.pga := VNum (Fin 5);
                      Status.intensity := VNum (int 1);
                      Status.intensityText := VUndefined;
                      Status.lastUpdate := Some 1000%Z |} Scenario.warm) /\
  areaStatus (snd (run [("S1", missing_pga)])) !! 106%Z
  = Some {| Status.name := "臺北市大安區";
            Status.pga := VNum (Fin 0);
            Status.intensity := VNum (int 1);
            Status.intensityText := VNum (Fin 1.2);
            Status.lastUpdate := Some 1000%Z |} /\
  run [("S6", Scenario.reading 5 1.2 1)] = (Throw TypeError, Scenario.warm).
Proof. repeat split; vm_compute; reflexivity. Qed.

(** ** Reconciler: a second run on the same payload *)

Lemma num_eq_trans a b c : num_eq a b = true -> num_eq b c = true -> num_eq a c = true.
Proof.
  destruct a as [p | | |], b as [q | | |], c as [r | | |]; simpl; try discriminate; trivial.
  rewrite !Qeq_bool_iff. apply Qeq_trans.
Qed.

Lemma num_eq_sym a b : num_eq a b = true -> num_eq b a = true.
Proof.
  destruct a as [p | | |], b as [q | | |]; simpl; try discriminate; trivial.
  rewrite !Qeq_bool_iff. apply Qeq_sym.
Qed.

Lemma num_eq_refl a : a <> NaN -> num_eq a a = true.
Proof. destruct a; simpl; try congruence. intros _. apply Qeq_bool_refl. Qed.

Lemma strict_eq_trans a b c :
  strict_eq a b = true -> strict_eq b c = true -> strict_eq a c = true.
Proof.
  destruct a, b, c; simpl; try discriminate; trivial;
    try (rewrite !bool_decide_eq_true; congruence).
  apply num_eq_trans.
Qed.

Lemma strict_eq_sym a b : strict_eq a b = true -> strict_eq b a = true.
Proof.
  destruct a, b; simpl; try discriminate; trivial;
    try (rewrite !bool_decide_eq_true; congruence).
  apply num_eq_sym.
Qed.

Lemma strict_eq_refl a : a <> VNum NaN -> strict_eq a a = true.
Proof.
  destruct a; simpl; intros Ha; try reflexivity; try (now apply bool_decide_eq_true).
  apply num_eq_refl. congruence.
Qed.

Lemma or_zero_not_NaN v : or_zero v <> VNum NaN.
Proof.
  unfold or_zero. destruct v as [| | b | [q | | |] | s | ref]; simpl; try discriminate.
  - destruct b; discriminate.
  - destruct (negb _); discriminate.
  - destruct (negb _); discriminate.
Qed.

Lemma needsUpdate_false current reading :
  needsUpdate current reading = false <->
  strict_eq (Status.pga current) (or_zero (Reading.pga reading)) = true /\
  strict_eq (Status.intensity current) (field (Reading.I reading)) = true /\
  is_Some (Status.lastUpdate current).
Proof.
  unfold needsUpdate, strict_neq.
  rewrite !orb_false_iff, !negb_false_iff, bool_decide_eq_true. tauto.
Qed.

(** The loop body returns only for a station whose history does not end
    in [null]. *)
Lemma processEntry_returns_nullInfo si now stationId stationData acc w acc' w' :
  processEntry si now (stationId, stationData) acc w = (Ok acc', w') ->
  nullInfo si stationId = false.
Proof.
  destruct (nullInfo si stationId) eqn:Hnull; [| reflexivity].
  rewrite processEntry_null by assumption. discriminate.
Qed.

(** After the loop body has run on an entry, the store shows it. *)
Lemma processEntry_settles si now entry acc w acc' w' :
  (forall reading, snd entry = Some reading -> Reading.I reading <> Some NaN) ->
  processEntry si now entry acc w = (Ok acc', w') ->
  settled (areaStatus w') si entry.
Proof.
  destruct entry as [stationId stationData]. intros Hjson Hrun.
  split; [exact (processEntry_returns_nullInfo _ _ _ _ _ _ _ _ Hrun) |].
  intros latestInfo targetArea Hc.
  cbn [fst snd] in *.
  destruct stationData as [reading |].
  2: { rewrite (processEntry_monitored _ _ _ _ _ _ _ Hc) in Hrun. discriminate. }
  rewrite (processEntry_run _ _ _ _ _ _ _ _ Hc) in Hrun.
  exists reading.
  destruct (areaStatus w !! Info.code latestInfo) as [current |] eqn:Hcur;
    [| discriminate].
  destruct (needsUpdate current reading) eqn:Hneed.
  - injection Hrun as _ <-. exists (statusOf targetArea reading now).
    split; [reflexivity |]. split; [apply lookup_insert_eq |].
    apply needsUpdate_false. simpl. split; [| split; [| eauto]].
    + apply strict_eq_refl, or_zero_not_NaN.
    + specialize (Hjson reading eq_refl).
      destruct (Reading.I reading) as [n |]; [| reflexivity].
      apply num_eq_refl. congruence.
  - injection Hrun as _ <-. eauto.
Qed.

(** The loop body on another entry that agrees keeps the store showing the
    first one. *)
Lemma processEntry_keeps_settled si now entry other acc w acc' w' :
  settled (areaStatus w) si entry ->
  agree si entry other ->
  processEntry si now other acc w = (Ok acc', w') ->
  settled (areaStatus w') si entry.
Proof.
  destruct other as [stationId stationData]. intros [Hnull1 Hset] Hagree Hrun.
  split; [exact Hnull1 |].
  pose proof (processEntry_returns_nullInfo _ _ _ _ _ _ _ _ Hrun) as Hnull2.
  destruct (currentArea si stationId) as [[l2 a2] |] eqn:Hc2.
  2: { rewrite processEntry_skip in Hrun by assumption. now injection Hrun as _ <-. }
  destruct stationData as [r2 |].
  2: { rewrite (processEntry_monitored _ _ _ _ _ _ _ Hc2) in Hrun. discriminate. }
  rewrite (processEntry_run _ _ _ _ _ _ _ _ Hc2) in Hrun.
  destruct (areaStatus w !! Info.code l2) as [cur2 |] eqn:Hcur2; [| discriminate].
  destruct (needsUpdate cur2 r2) eqn:Hneed2; [| now injection Hrun as _ <-].
  injection Hrun as _ <-. intros l1 a1 Hc1.
  destruct (Hset l1 a1 Hc1) as (r1 & cur1 & Hr1 & Hcur1 & Hneed1).
  exists r1. simpl.
  destruct (decide (Info.code l1 = Info.code l2)) as [Heq | Hne].
  - exfalso. rewrite Heq, Hcur2 in Hcur1. injection Hcur1 as ->.
    destruct (Hagree l1 a1 l2 a2 r1 r2 Hc1 Hc2 Heq Hr1 eq_refl) as [Hp Hi].
    apply needsUpdate_false in Hneed1 as (Hp1 & Hi1 & Hlast).
    assert (needsUpdate cur1 r2 = false); [| congruence].
    apply needsUpdate_false. split; [| split; [| exact Hlast]].
    + exact (strict_eq_trans _ _ _ Hp1 Hp).
    + exact (strict_eq_trans _ _ _ Hi1 Hi).
  - exists cur1. rewrite lookup_insert_ne by congruence. auto.
Qed.

Lemma forEntries_keeps_settled si now entry rest acc w acc' w' :
  settled (areaStatus w) si entry ->
  (forall other, other ∈ rest -> agree si entry other) ->
  forEntries si now rest acc w = (Ok acc', w') ->
  settled (areaStatus w') si entry.
Proof.
  revert acc w. induction rest as [| other rest IH]; intros acc w Hset Hagree;
    cbn [forEntries].
  - now intros [= _ <-].
  - unfold bind.
    destruct (processEntry si now other acc w) as [[acc1 | e] w1] eqn:Hstep;
      [| discriminate].
    intros Hrest. apply (IH acc1 w1); [| | exact Hrest].
    + apply (processEntry_keeps_settled si now entry other acc w acc1 w1);
        [exact Hset | apply Hagree; left | exact Hstep].
    + intros o Ho. apply Hagree. now right.
Qed.

(** After a run that returned, the store shows every entry. *)
Lemma forEntries_settles si now entries acc w acc' w' :
  json_payload entries ->
  one_value_per_area si entries ->
  forEntries si now entries acc w = (Ok acc', w') ->
  forall entry, entry ∈ entries -> settled (areaStatus w') si entry.
Proof.
  revert acc w. induction entries as [| first rest IH]; intros acc w Hjson Hone;
    cbn [forEntries].
  - intros _ entry Hin. now apply elem_of_nil in Hin.
  - unfold bind.
    destruct (processEntry si now first acc w) as [[acc1 | e] w1] eqn:Hstep;
      [| discriminate].
    intros Hrest entry Hin. apply elem_of_cons in Hin as [-> | Hin].
    + apply (forEntries_keeps_settled si now first rest acc1 w1 acc' w');
        [| | exact Hrest].
      * apply (processEntry_settles si now first acc w acc1 w1); [| exact Hstep].
        intros reading Hr. destruct first as [id sd]. simpl in Hr. subst sd.
        apply (Hjson id reading). left.
      * intros other Ho. apply (Hone first other); [left | now right].
    + apply (IH acc1 w1); [| | exact Hrest | exact Hin].
      * intros id reading Hr. apply (Hjson id reading). now right.
      * intros e1 e2 H1 H2. apply (Hone e1 e2); now right.
Qed.

(** A run on entries the store already shows changes nothing. *)
Lemma forEntries_settled si now entries acc w :
  (forall entry, entry ∈ entries -> settled (areaStatus w) si entry) ->
  forEntries si now entries acc w = (Ok acc, w).
Proof.
  induction entries as [| [stationId stationData] rest IH]; intros Hall;
    cbn [forEntries].
  - reflexivity.
  - unfold bind.
    assert (Hstep : processEntry si now (stationId, stationData) acc w = (Ok acc, w)).
    { destruct (Hall (stationId, stationData) ltac:(left)) as [Hnull Hshown].
      cbn [fst snd] in *.
      destruct (currentArea si stationId) as [[latestInfo targetArea] |] eqn:Hc.
      - destruct (Hshown _ _ eq_refl) as (reading & current & Hr & Hcur & Hneed).
        subst stationData.
        rewrite (processEntry_run _ _ _ _ _ _ _ _ Hc), Hcur, Hneed. reflexivity.
      - rewrite processEntry_skip by assumption. reflexivity. }
    rewrite Hstep. apply IH. intros entry Hin. apply Hall. now right.
Qed.

(** C6, as the code has it: take a payload without [NaN] in which the
    entries of stations of one configured area agree on [pga] and integer
    intensity, and a first run of the reconciler on it that returns.  A
    second run on the same payload, with [getStationInfo] answering the same
    directory, returns an empty changed-list and leaves the store, with every
    [lastUpdate], as the first run left it. *)
Theorem reconciler_idempotent
    (si : StationInfo) (data : Rts.t) (entries : list (string * option Reading.t))
    (now1 now2 : Z) (net1 net2 : Net StationInfo)
    (w0 w0' w1 w1' : World) (result1 : Result.t) :
  Rts.station data = Some entries ->
  json_payload entries ->
  one_value_per_area si entries ->
  getStationInfo now1 net1 w0 = (Ok (Some si), w0') ->
  processTargetAreaData (Some data) now1 net1 w0 = (Ok (Some result1), w1) ->
  getStationInfo now2 net2 w1 = (Ok (Some si), w1') ->
  exists result2 w2,
    processTargetAreaData (Some data) now2 net2 w1 = (Ok (Some result2), w2) /\
    Result.updatedAreas result2 = [] /\
    areaStatus w2 = areaStatus w1.
Proof.
  intros Hentries Hjson Hone Hsi1 Hrun1 Hsi2.
  destruct data as [time station]. simpl in Hentries. subst station.
  rewrite (processTargetAreaData_with_info si) with (w0 := w0') in Hrun1 by assumption.
  rewrite (processTargetAreaData_with_info si) with (w0 := w1') by assumption.
  destruct (forEntries si now1 entries [] w0') as [[acc1 | e] w1x] eqn:Hloop1;
    [| discriminate].
  injection Hrun1 as _ <-.
  pose proof (forEntries_settles _ _ _ _ _ _ _ Hjson Hone Hloop1) as Hsettled.
  assert (Hstore : areaStatus w1' = areaStatus w1x)
    by exact (preserves_getStationInfo (same_store_bookkeeping (areaStatus w1x))
                _ _ _ _ _ eq_refl Hsi2).
  rewrite forEntries_settled.
  - eexists _, _. split; [reflexivity |]. split; [reflexivity | exact Hstore].
  - intros entry Hin. rewrite Hstore. now apply Hsettled.
Qed.

Lemma reconciler_idempotent_witness :
  let data := {| Rts.time := None;
                 Rts.station := Some [("S1", Scenario.reading 5 1.2 1)] |} in
  let w1 := snd (processTargetAreaData (Some data) 1000 Scenario.served initialWorld) in
  exists result2 w2,
    processTargetAreaData (Some data) 2000 (Rejected true) w1 = (Ok (Some result2), w2) /\
    Result.updatedAreas result2 = [] /\
    areaStatus w2 = areaStatus w1.
Proof.
  intros data w1.
  apply (reconciler_idempotent Scenario.directory data
           [("S1", Scenario.reading 5 1.2 1)] 1000%Z 2000%Z
           Scenario.served (Rejected true) initialWorld
           (snd (getStationInfo 1000 Scenario.served initialWorld)) w1 w1
           {| Result.time := int 1000;
              Result.updatedAreas :=
                [updatedOf "S1"
                   {| Info.code := 106; Info.lat := Fin 25; Info.lon := Fin 121.5 |}
                   {| Area.code := 106; Area.name := "臺北市大安區" |}
                   {| Reading.pga := VNum (Fin 5); Reading.i := VNum (Fin 1.2);
                      Reading.I := Some (int 1) |} (Fin 1.2)] |}).
  - reflexivity.
  - intros stationId reading Hin. apply list_elem_of_singleton in Hin.
    injection Hin as _ ->. repeat split; discriminate.
  - intros e1 e2 H1 H2. apply list_elem_of_singleton in H1, H2. subst e1 e2.
    intros l1 a1 l2 a2 r1 r2 _ _ _ [= <-] [= <-]. split; reflexivity.
  - reflexivity.
  - vm_compute. reflexivity.
  - vm_compute. reflexivity.
Defined.

(** C6 as written fails: with two stations of one configured area that
    report different values, the second run on the same payload reports both
    as changed again and moves [lastUpdate]. *)
Lemma reconciler_second_run_changes :
  let data := Scenario.payload [("S1", Scenario.reading 5 1.2 1);
                                ("S2", Scenario.reading 7 2 2)] in
  let run1 := processTargetAreaData data 1000 (Rejected true) Scenario.warm in
  let run2 := processTargetAreaData data 2000 (Rejected true) (snd run1) in
  (exists result1, fst run1 = Ok (Some result1)) /\
  (exists result2,
      fst run2 = Ok (Some result2) /\
      map Updated.stationId (Result.updatedAreas result2) = ["S1"; "S2"]) /\
  Status.lastUpdate <$> areaStatus (snd run1) !! 106%Z = Some (Some 1000%Z) /\
  Status.lastUpdate <$> areaStatus (snd run2) !! 106%Z = Some (Some 2000%Z).
Proof.
  repeat split; try (eexists; split); vm_compute; reflexivity.
Qed.

(** ** Poll loop: the redraw of every 60th request *)

Lemma drawable_find store :
  drawable store = true <->
  List.find (fun area => negb (renders store area)) CONFIG.targetAreas = None.
Proof.
  unfold drawable. generalize CONFIG.targetAreas. intros areas.
  induction areas as [| area rest IH]; simpl; [tauto |].
  destruct (renders store area); simpl; [exact IH | split; discriminate].
Qed.

(** What [displayAreaStatus] does, in every state. *)
Lemma displayAreaStatus_eq w :
  displayAreaStatus w =
  (if drawable (areaStatus w) then Ok tt else Throw TypeError,
   record (redraw (areaStatus w)) w).
Proof.
  unfold displayAreaStatus, redraw. run_monad.
  destruct (drawable (areaStatus w)) eqn:Hd.
  - apply drawable_find in Hd. rewrite Hd. reflexivity.
  - destruct (List.find _ CONFIG.targetAreas) as [area |] eqn:Hf; [reflexivity |].
    apply drawable_find in Hf. congruence.
Qed.

Lemma numeric_drawable w :
  store_invariant w -> numeric_store w -> drawable (areaStatus w) = true.
Proof.
  intros Hw Hnum. apply forallb_forall. intros area Hin. unfold renders.
  assert (Hdom : Area.code area ∈ dom (areaStatus w)).
  { rewrite Hw. unfold targets. apply elem_of_list_to_set, list_elem_of_fmap.
    exists area. split; [reflexivity | now apply list_elem_of_In]. }
  apply elem_of_dom in Hdom as [s Hs]. rewrite Hs. exact (Hnum _ _ Hs).
Qed.

Lemma redraw_drawable store : drawable store = true -> redraw store = [Display store].
Proof. intros Hd. unfold redraw. apply drawable_find in Hd. now rewrite Hd. Qed.

Lemma displayAreaStatus_run w :
  drawable (areaStatus w) = true ->
  displayAreaStatus w = (Ok tt, record [Display (areaStatus w)] w).
Proof. intros Hd. now rewrite displayAreaStatus_eq, Hd, redraw_drawable. Qed.

Lemma fetchData_run {B} url (net : Net B) w :
  exists messages off,
    fetchData url net w =
    (Ok (answer net),
     {| lastFetchTime := lastFetchTime w; requestCounter := requestCounter w;
        isOffline := off; areaStatus := areaStatus w;
        stationInfo := stationInfo w;
        lastStationInfoFetch := lastStationInfoFetch w;
        trace := trace w ++ Request url :: (Console <$> messages) |}).
Proof.
  unfold fetchData. run_monad. simpl.
  destruct net as [aborted | r], (isOffline w) eqn:Hoff; simpl.
  - exists [], true. now rewrite <- Hoff.
  - eexists [_], true. now rewrite <- app_assoc.
  - eexists [_], false. now rewrite <- app_assoc.
  - exists [], false. now rewrite <- Hoff.
Qed.

Lemma handleResponse_failed tick :
  failed (Tick.rts tick) = true ->
  handleResponse tick (answer (Tick.rts tick)) = ret tt.
Proof.
  unfold handleResponse, failed. destruct (Tick.rts tick) as [aborted | r]; simpl.
  - reflexivity.
  - intros Hok. apply negb_true_iff in Hok. now rewrite Hok.
Qed.

Lemma fetchRealtimeData_run tick w :
  (CONFIG.interval <= Tick.now tick - lastFetchTime w)%Z ->
  fetchRealtimeData tick w =
  try_catch (fetchCycle tick) (fun error => emit (Console (FetchFailed error)))
            (requested (Tick.now tick) w).
Proof.
  intros Hdue. unfold fetchRealtimeData. unfold bind at 1, get.
  rewrite bool_decide_eq_false_2 by lia. reflexivity.
Qed.

(** * Further properties of the code *)

(** ** Intensity model *)

(** X1: [intensityFloatToInt] returns an integer level from 0 to 9 on every
    number, infinities and [NaN] included, and every such level is returned
    for some input. *)
Theorem intensityFloatToInt_levels :
  (forall x : number,
      exists k : Z, (0 <= k <= 9)%Z /\ intensityFloatToInt x = int k) /\
  (forall k : Z,
      (0 <= k <= 9)%Z -> exists x : number, intensityFloatToInt x = int k).
Proof.
  split.
  - intros [q | | |].
    + destruct (intensityFloatToInt_Fin q) as (k & Hk & Hcases).
      exists k. split; [| exact Hk].
      destruct Hcases as [[? ->] | [(? & ? & -> & ?) | [(? & ? & ->) | [(? & ? & ->) |
                         [(? & ? & ->) | [(? & ? & ->) | [? ->]]]]]]]; lia.
    + exists 9%Z. split; [lia | reflexivity].
    + exists 0%Z. split; [lia | reflexivity].
    + exists 9%Z. split; [lia | reflexivity].
  - intros k Hk.
    assert (Hcases : In k [0; 1; 2; 3; 4; 5; 6; 7; 8; 9]%Z) by (simpl; lia).
    simpl in Hcases.
    destruct Hcases as [<- | [<- | [<- | [<- | [<- | Hcases]]]]].
    1-5: match goal with |- exists x, _ = int ?k => exists (int k); reflexivity end.
    destruct Hcases as [<- | [<- | [<- | [<- | [<- | []]]]]].
    + exists (Fin 4.5). reflexivity.
    + exists (Fin 5). reflexivity.
    + exists (Fin 5.5). reflexivity.
    + exists (Fin 6). reflexivity.
    + exists (Fin 6.5). reflexivity.
Qed.

Lemma intensityFloatToInt_levels_witness :
  exists x : number, intensityFloatToInt x = int 7.
Proof. apply (proj2 intensityFloatToInt_levels 7%Z). lia. Defined.

(** X2: the text of the level of any number is an entry of
    [INTENSITY_LIST]: composed with [intensityFloatToInt], [intensityToText]
    never answers 不明 and never [undefined]. *)
Theorem intensityToText_of_level (x : number) :
  exists s : string,
    s ∈ INTENSITY_LIST /\
    intensityToText (intensityFloatToInt x) = VStr s.
Proof.
  assert (Hlevel : exists k : Z, (0 <= k <= 9)%Z /\ intensityFloatToInt x = int k).
  { destruct x as [q | | |].
    - destruct (intensityFloatToInt_Fin q) as (k & Hk & Hcases).
      exists k. split; [| exact Hk].
      destruct Hcases as [[? ->] | [(? & ? & -> & ?) | [(? & ? & ->) | [(? & ? & ->) |
                         [(? & ? & ->) | [(? & ? & ->) | [? ->]]]]]]]; lia.
    - exists 9%Z. split; [lia | reflexivity].
    - exists 0%Z. split; [lia | reflexivity].
    - exists 9%Z. split; [lia | reflexivity]. }
  destruct Hlevel as (k & Hk & ->).
  assert (Hcases : In k [0; 1; 2; 3; 4; 5; 6; 7; 8; 9]%Z) by (simpl; lia).
  simpl in Hcases.
  repeat (destruct Hcases as [<- | Hcases];
          [eexists; split; [| reflexivity]; unfold INTENSITY_LIST; repeat constructor |]).
  destruct Hcases.
Qed.

(** X3: [intensityToText] outside the integers: a level from 0 up to, not
    including, 10 that is not an integer reads [INTENSITY_LIST] at a missing
    index and yields [undefined]; [NaN] and the infinities yield 不明. *)
Theorem intensityToText_off_scale :
  (forall q : Q,
      (0 <= q)%Q -> (q < 10)%Q -> ~ (q == inject_Z (Qfloor q))%Q ->
      intensityToText (Fin q) = VUndefined) /\
  intensityToText NaN = VStr "不明" /\
  intensityToText PInf = VStr "不明" /\
  intensityToText NInf = VStr "不明".
Proof.
  split; [| repeat split; reflexivity].
  intros q Hlo Hhi Hfrac. unfold intensityToText.
  assert (Hge : ge (Fin q) (Fin 0) = true) by now apply le_Fin_true.
  assert (Hlt : lt (Fin q) (int (Z.of_nat (length INTENSITY_LIST))) = true)
    by now apply lt_Fin_true.
  rewrite Hge, Hlt. simpl.
  destruct (Qeq_bool q (inject_Z (Qfloor q))) eqn:Heq; [| reflexivity].
  apply Qeq_bool_iff in Heq. contradiction.
Qed.

Lemma intensityToText_off_scale_witness :
  intensityToText (Fin 2.5) = VUndefined.
Proof.
  apply (proj1 intensityToText_off_scale); vm_compute; congruence.
Defined.

(** ** Endpoint pools *)

Lemma Qfloor_scaled_bounds (random : Q) (n : Z) :
  (0 <= random)%Q -> (random < 1)%Q -> (0 < n)%Z ->
  (0 <= Qfloor (random * inject_Z n) < n)%Z.
Proof.
  intros Hlo Hhi Hn. rewrite Zlt_Qlt in Hn. change (inject_Z 0) with 0%Q in Hn.
  split.
  - rewrite <- (Qfloor_Z 0). apply Qfloor_resp_le.
    change (inject_Z 0) with 0%Q. apply Qmult_le_0_compat; [exact Hlo | lra].
  - rewrite Zlt_Qlt.
    eapply Qle_lt_trans; [apply Qfloor_le |].
    rewrite <- (Qmult_1_l (inject_Z n)) at 2.
    apply Qmult_lt_compat_r; assumption.
Qed.

(** X4: for every value [Math.random()] can return, [getRandomServer]
    returns a server of the pool asked for, never [undefined], and every
    server of the pool is returned for some value. *)
Theorem getRandomServer_in_pool (type : Pool) :
  let pool := match type with api => servers.api | lb => servers.lb end in
  (forall random : Q,
      (0 <= random)%Q -> (random < 1)%Q ->
      exists server, getRandomServer type random = Some server /\ server ∈ pool) /\
  (forall server,
      server ∈ pool ->
      exists random : Q,
        (0 <= random)%Q /\ (random < 1)%Q /\
        getRandomServer type random = Some server).
Proof.
  intros pool. split.
  - intros random Hlo Hhi. unfold getRandomServer.
    destruct type.
    + change (Z.of_nat (length servers.api)) with 2%Z.
      pose proof (Qfloor_scaled_bounds random 2 Hlo Hhi eq_refl) as Hk.
      destruct (Qfloor (random * inject_Z 2)) as [| [[] | [] |] |]; try lia;
        (eexists; split; [reflexivity | unfold pool, servers.api; repeat constructor]).
    + change (Z.of_nat (length servers.lb)) with 4%Z.
      pose proof (Qfloor_scaled_bounds random 4 Hlo Hhi eq_refl) as Hk.
      destruct (Qfloor (random * inject_Z 4)) as [| [[] | [[] | [] |] |] |]; try lia;
        (eexists; split; [reflexivity | unfold pool, servers.lb; repeat constructor]).
  - intros server Hin. destruct type; unfold pool, servers.api, servers.lb in Hin;
      repeat (apply elem_of_cons in Hin as [-> | Hin]);
      try (now apply elem_of_nil in Hin).
    + exists 0%Q. repeat split; reflexivity || discriminate.
    + exists (1 # 2)%Q. repeat split; reflexivity || discriminate.
    + exists 0%Q. repeat split; reflexivity || discriminate.
    + exists (1 # 4)%Q. repeat split; reflexivity || discriminate.
    + exists (2 # 4)%Q. repeat split; reflexivity || discriminate.
    + exists (3 # 4)%Q. repeat split; reflexivity || discriminate.
Qed.

Lemma getRandomServer_in_pool_witness :
  (exists server,
      getRandomServer lb (7 # 10) = Some server /\ server ∈ servers.lb) /\
  (exists random : Q,
      (0 <= random)%Q /\ (random < 1)%Q /\
      getRandomServer api random = Some "api-2.exptech.dev").
Proof.
  split.
  - apply (proj1 (getRandomServer_in_pool lb)); vm_compute; congruence.
  - apply (proj2 (getRandomServer_in_pool api)). unfold servers.api. repeat constructor.
Defined.

(** ** Upstream client *)

Lemma fetchData_closed {B} (url : Endpoint) (net : Net B) (w : World) :
  fetchData url net w
  = (Ok (answer net),
     {| lastFetchTime := lastFetchTime w; requestCounter := requestCounter w;
        isOffline := rejected net; areaStatus := areaStatus w;
        stationInfo := stationInfo w;
        lastStationInfoFetch := lastStationInfoFetch w;
        trace := trace w ++ Request url :: transition net (isOffline w) |}).
Proof.
  unfold fetchData. run_monad. simpl.
  destruct net as [aborted | r], (isOffline w) eqn:Hoff; simpl;
    rewrite <- ?app_assoc, <- ?Hoff; reflexivity.
Qed.

(** X5: [fetchData] never throws and hands back the response, or [null]
    for a rejected request; afterwards [isOffline] tells whether the request
    was rejected, and a console line is written only when that flag changes:
    a request with the same kind of outcome as the one before it adds
    nothing to the console. *)
Theorem fetchData_edge_triggered {B} (url : Endpoint) (net : Net B) (w : World) :
  fetchData url net w
  = (Ok (answer net),
     {| lastFetchTime := lastFetchTime w; requestCounter := requestCounter w;
        isOffline := rejected net; areaStatus := areaStatus w;
        stationInfo := stationInfo w;
        lastStationInfoFetch := lastStationInfoFetch w;
        trace := trace w ++ Request url :: transition net (isOffline w) |}) /\
  (forall (url' : Endpoint) (net' : Net B),
      rejected net' = rejected net ->
      trace (snd (fetchData url' net' (snd (fetchData url net w))))
      = trace (snd (fetchData url net w)) ++ [Request url']).
Proof.
  split; [apply fetchData_closed |].
  intros url' net' Hsame. rewrite !fetchData_closed. simpl. rewrite <- Hsame.
  destruct net'; reflexivity.
Qed.

Lemma fetchData_edge_triggered_witness :
  trace (snd (fetchData RtsEndpoint (Rejected false (B := option Rts.t))
                (snd (fetchData RtsEndpoint (Rejected true (B := option Rts.t))
                        initialWorld))))
  = trace (snd (fetchData RtsEndpoint (Rejected true (B := option Rts.t)) initialWorld))
    ++ [Request RtsEndpoint].
Proof.
  apply (proj2 (fetchData_edge_triggered RtsEndpoint (Rejected true) initialWorld)).
  reflexivity.
Defined.

(** ** Station metadata cache *)

Lemma getStationInfo_hit now net w si :
  stationInfo w = Some si ->
  (now - lastStationInfoFetch w < STATION_INFO_INTERVAL)%Z ->
  getStationInfo now net w = (Ok (Some si), w).
Proof.
  intros Hsi Hfresh. unfold getStationInfo, bind at 1, get. rewrite Hsi.
  rewrite bool_decide_eq_true_2 by assumption. reflexivity.
Qed.

Lemma getStationInfo_refresh now net w :
  expired now w ->
  getStationInfo now net w =
  (let* response := fetchData StationEndpoint net in
   match response with
   | Some r =>
       if ok r then
         let* body := parse r in
         set_stationInfo body now ;;
         emit (Console StationInfoUpdated) ;;
         ret (Some body)
       else emit (Console StationInfoFailed) ;; ret None
   | None => emit (Console StationInfoFailed) ;; ret None
   end) w.
Proof.
  intros Hexp. unfold getStationInfo, bind at 1, get.
  destruct Hexp as [-> | Hold]; [reflexivity |].
  destruct (stationInfo w); [| reflexivity].
  rewrite bool_decide_eq_false_2 by lia. reflexivity.
Qed.

(** X6: when the cache is cold or expired and the station service answers
    OK with a directory, [getStationInfo] returns that directory, makes it
    the cache and stamps it with the time of the call; any call less than
    five minutes after that time returns the cached directory without a
    request and without changing anything, whatever the network would do. *)
Theorem getStationInfo_caches
    (now now' : Z) (r : Response StationInfo) (body : StationInfo) (w : World) :
  expired now w ->
  ok r = true ->
  json r = Some body ->
  (now' - now < STATION_INFO_INTERVAL)%Z ->
  fst (getStationInfo now (Resolved r) w) = Ok (Some body) /\
  stationInfo (snd (getStationInfo now (Resolved r) w)) = Some body /\
  lastStationInfoFetch (snd (getStationInfo now (Resolved r) w)) = now /\
  (forall net',
      getStationInfo now' net' (snd (getStationInfo now (Resolved r) w))
      = (Ok (Some body), snd (getStationInfo now (Resolved r) w))).
Proof.
  intros Hexp Hok Hjson Hsoon.
  assert (Hrun : exists w1,
             getStationInfo now (Resolved r) w = (Ok (Some body), w1) /\
             stationInfo w1 = Some body /\ lastStationInfoFetch w1 = now).
  { rewrite getStationInfo_refresh by assumption. run_monad. simpl.
    destruct (isOffline w); simpl; rewrite Hok, Hjson; simpl; eauto. }
  destruct Hrun as (w1 & -> & Hsi & Hlast). simpl.
  repeat split; try assumption.
  intros net'. apply getStationInfo_hit; [exact Hsi | now rewrite Hlast].
Qed.

Lemma getStationInfo_caches_witness :
  fst (getStationInfo 1000 Scenario.served initialWorld) = Ok (Some Scenario.directory) /\
  stationInfo (snd (getStationInfo 1000 Scenario.served initialWorld))
  = Some Scenario.directory /\
  lastStationInfoFetch (snd (getStationInfo 1000 Scenario.served initialWorld)) = 1000%Z /\
  (forall net',
      getStationInfo 300999 net' (snd (getStationInfo 1000 Scenario.served initialWorld))
      = (Ok (Some Scenario.directory),
         snd (getStationInfo 1000 Scenario.served initialWorld))).
Proof.
  apply getStationInfo_caches.
  - left. reflexivity.
  - reflexivity.
  - reflexivity.
  - vm_compute. reflexivity.
Defined.

(** X7: when the cache is cold or expired and the station service answers
    OK with a body that does not parse, [getStationInfo] throws; the cached
    directory, its time stamp and the area store stay as they were. *)
Theorem getStationInfo_throws_on_bad_body
    (now : Z) (r : Response StationInfo) (w : World) :
  expired now w ->
  ok r = true ->
  json r = None ->
  fst (getStationInfo now (Resolved r) w) = Throw SyntaxError /\
  stationInfo (snd (getStationInfo now (Resolved r) w)) = stationInfo w /\
  lastStationInfoFetch (snd (getStationInfo now (Resolved r) w))
  = lastStationInfoFetch w /\
  areaStatus (snd (getStationInfo now (Resolved r) w)) = areaStatus w.
Proof.
  intros Hexp Hok Hjson. rewrite getStationInfo_refresh by assumption.
  run_monad. simpl.
  destruct (isOffline w); simpl; rewrite Hok, Hjson; simpl; auto.
Qed.

Lemma getStationInfo_throws_on_bad_body_witness :
  fst (getStationInfo 300000 (Resolved {| ok := true; json := None |}) staleWorld)
  = Throw SyntaxError /\
  stationInfo (snd (getStationInfo 300000 (Resolved {| ok := true; json := None |})
                      staleWorld)) = stationInfo staleWorld /\
  lastStationInfoFetch
    (snd (getStationInfo 300000 (Resolved {| ok := true; json := None |}) staleWorld))
  = lastStationInfoFetch staleWorld /\
  areaStatus (snd (getStationInfo 300000 (Resolved {| ok := true; json := None |})
                     staleWorld)) = areaStatus staleWorld.
Proof.
  apply getStationInfo_throws_on_bad_body.
  - right. vm_compute. discriminate.
  - reflexivity.
  - reflexivity.
Defined.

(** ** Poll loop *)

Lemma clock_bookkeeping t n :
  bookkeeping_free (fun w => lastFetchTime w = t /\ requestCounter w = n).
Proof. unfold bookkeeping_free. trivial. Qed.

Lemma clock_overwrite t n :
  overwrite_stable (fun w => lastFetchTime w = t /\ requestCounter w = n).
Proof. unfold overwrite_stable. trivial. Qed.

Lemma fetchRealtimeData_limited tick w :
  (Tick.now tick - lastFetchTime w < CONFIG.interval)%Z ->
  fetchRealtimeData tick w = (Ok tt, w).
Proof.
  intros Hsoon. unfold fetchRealtimeData, bind at 1, get.
  rewrite bool_decide_eq_true_2 by assumption. reflexivity.
Qed.

Lemma fetchRealtimeData_counted tick w :
  (CONFIG.interval <= Tick.now tick - lastFetchTime w)%Z ->
  lastFetchTime (snd (fetchRealtimeData tick w)) = Tick.now tick /\
  requestCounter (snd (fetchRealtimeData tick w)) = (requestCounter w + 1)%Z.
Proof.
  intros Hdue. rewrite fetchRealtimeData_run by assumption.
  refine (preserves_try_catch (P := fun v => lastFetchTime v = Tick.now tick /\
                                             requestCounter v = (requestCounter w + 1)%Z)
            _ _ _ _ (requested (Tick.now tick) w) _ _ _ (surjective_pairing _)).
  - apply preserves_fetchCycle; [apply clock_bookkeeping | apply clock_overwrite].
  - intros e. apply preserves_emit, clock_bookkeeping.
  - split; reflexivity.
Qed.

(** X8: [fetchRealtimeData] never throws, so that no call of the timer
    stops the polling; what the statements under [try] throw is caught and
    written to the console as the last thing the call does. *)
Theorem fetchRealtimeData_never_throws :
  (forall tick w, fst (fetchRealtimeData tick w) = Ok tt) /\
  (forall ticks w, fst (poll ticks w) = Ok tt) /\
  (forall tick w e w1,
      (CONFIG.interval <= Tick.now tick - lastFetchTime w)%Z ->
      fetchCycle tick (requested (Tick.now tick) w) = (Throw e, w1) ->
      snd (fetchRealtimeData tick w) = record [Console (FetchFailed e)] w1).
Proof.
  split; [| split].
  - intros tick w. destruct (fetchRealtimeData_returns tick w) as [w' ->]. reflexivity.
  - intros ticks w. rewrite poll_runs_every_tick. reflexivity.
  - intros tick w e w1 Hdue Hthrow. rewrite fetchRealtimeData_run by assumption.
    unfold try_catch. rewrite Hthrow. reflexivity.
Qed.

Lemma fetchRealtimeData_never_throws_witness :
  snd (fetchRealtimeData garbledTick Scenario.warm)
  = record [Console (FetchFailed SyntaxError)]
      (record [Request RtsEndpoint] (requested 5000 Scenario.warm)).
Proof.
  apply (proj2 (proj2 fetchRealtimeData_never_throws) garbledTick Scenario.warm SyntaxError).
  - vm_compute. discriminate.
  - reflexivity.
Defined.

(** X9: the rate limit.  A call that comes less than [CONFIG.interval]
    after [lastFetchTime] changes nothing.  Any other call counts one
    request and sets [lastFetchTime] to its time, whatever the network
    answers and whether or not the cycle throws; so a call less than one
    interval after a counted call changes nothing. *)
Theorem fetchRealtimeData_rate_limit (tick : Tick.t) (w : World) :
  ((Tick.now tick - lastFetchTime w < CONFIG.interval)%Z ->
   fetchRealtimeData tick w = (Ok tt, w)) /\
  ((CONFIG.interval <= Tick.now tick - lastFetchTime w)%Z ->
   lastFetchTime (snd (fetchRealtimeData tick w)) = Tick.now tick /\
   requestCounter (snd (fetchRealtimeData tick w)) = (requestCounter w + 1)%Z /\
   forall next : Tick.t,
     (Tick.now next - Tick.now tick < CONFIG.interval)%Z ->
     fetchRealtimeData next (snd (fetchRealtimeData tick w))
     = (Ok tt, snd (fetchRealtimeData tick w))).
Proof.
  split; [apply fetchRealtimeData_limited |].
  intros Hdue. destruct (fetchRealtimeData_counted tick w Hdue) as [Htime Hcount].
  repeat split; try assumption.
  intros next Hsoon. apply fetchRealtimeData_limited. now rewrite Htime.
Qed.

Lemma fetchRealtimeData_rate_limit_witness :
  fetchRealtimeData garbledTick (snd (fetchRealtimeData tick60 before60))
  = (Ok tt, snd (fetchRealtimeData tick60 before60)) /\
  requestCounter (snd (fetchRealtimeData garbledTick Scenario.warm)) = 1%Z /\
  fetchRealtimeData tick60 (snd (fetchRealtimeData tick60 before60))
  = (Ok tt, snd (fetchRealtimeData tick60 before60)).
Proof.
  split; [| split].
  - apply (proj1 (fetchRealtimeData_rate_limit garbledTick
                    (snd (fetchRealtimeData tick60 before60)))).
    vm_compute. reflexivity.
  - apply (proj2 (fetchRealtimeData_rate_limit garbledTick Scenario.warm)).
    vm_compute. discriminate.
  - apply (proj2 (fetchRealtimeData_rate_limit tick60 before60)).
    + vm_compute. discriminate.
    + vm_compute. reflexivity.
Defined.

(** ** Broadcast *)

Lemma record_nil w : record [] w = w.
Proof. destruct w. unfold record. simpl. now rewrite app_nil_r. Qed.

Lemma record_record events events' w :
  record events' (record events w) = record (events ++ events') w.
Proof. unfold record. simpl. now rewrite app_assoc. Qed.

(** X10: a broadcast never throws and leaves the store alone; it sends the
    store, as it is at that time, to the clients whose [readyState] is
    [OPEN], in the order of [wss.clients], and nothing to the others (nor
    anything at all when there is no server). *)
Theorem broadcast_reaches_open_clients
    (clients : option (list Client.t)) (w : World) :
  broadcast clients w = (Ok tt, record (sends clients (areaStatus w)) w).
Proof.
  destruct clients as [cs |]; simpl; [| now rewrite record_nil].
  revert w. induction cs as [| client cs IH]; intros w; simpl.
  - now rewrite record_nil.
  - unfold bind at 1. rewrite filter_cons.
    destruct (Client.readyState client =? OPEN)%Z eqn:Hopen.
    + apply Z.eqb_eq in Hopen. rewrite decide_True by assumption.
      run_monad. rewrite IH, record_record. reflexivity.
    + apply Z.eqb_neq in Hopen. rewrite decide_False by assumption.
      unfold ret. apply IH.
Qed.

(** ** Poll loop: a successful request *)

Lemma continues_bookkeeping w0 : bookkeeping_free (continues w0).
Proof.
  intros w off si last events [evs Hevs]. exists (evs ++ events). simpl.
  now rewrite Hevs, app_assoc.
Qed.

Lemma continues_overwrite w0 : overwrite_stable (continues w0).
Proof. intros w areaCode s _ H. exact H. Qed.

(** The console lines of the changed areas: only events are added, up to
    the end or to the first [pga] that cannot be rendered. *)
Lemma logUpdates_run (updatedAreas : list Updated.t) w :
  exists r events, forEach logUpdate updatedAreas w = (r, record events w).
Proof.
  revert w. induction updatedAreas as [| area rest IH]; intros w; simpl.
  - exists (Ok tt), []. now rewrite record_nil.
  - unfold bind at 1. unfold logUpdate at 1.
    destruct (positive (Updated.intensity area)).
    + destruct (is_number (Updated.pga area)).
      * change (emit (Console (IntensityUpdated area)) w)
          with (Ok tt, record [Console (IntensityUpdated area)] w).
        cbv beta iota.
        destruct (IH (record [Console (IntensityUpdated area)] w)) as (r & evs & ->).
        eexists _, _. now rewrite record_record.
      * exists (Throw TypeError), []. now rewrite record_nil.
    + unfold ret. apply IH.
Qed.

(** The test of line 403 and what follows it. *)
Lemma heartbeat_eq w :
  heartbeat w =
  if (requestCounter w mod 60 =? 0)%Z
  then (if drawable (areaStatus w) then Ok tt else Throw TypeError,
        record (redraw (areaStatus w)) w)
  else (Ok tt, w).
Proof.
  unfold heartbeat, bind, get.
  destruct (requestCounter w mod 60 =? 0)%Z; [apply displayAreaStatus_eq | reflexivity].
Qed.

Lemma heartbeat_run w :
  exists r events, heartbeat w = (r, record events w).
Proof.
  rewrite heartbeat_eq. destruct (requestCounter w mod 60 =? 0)%Z; [eauto |].
  exists (Ok tt), []. now rewrite record_nil.
Qed.

(** X11: on a call that is not rate-limited and whose realtime request is
    answered OK, either an exception ends the cycle and is logged, or the
    call redraws the table and then sends the store to every ready
    subscriber, both with the store as the call leaves it; this happens
    whether or not any area changed. *)
Theorem successful_tick_broadcasts
    (tick : Tick.t) (r : Response (option Rts.t)) (w : World) :
  (CONFIG.interval <= Tick.now tick - lastFetchTime w)%Z ->
  store_invariant w ->
  Tick.rts tick = Resolved r ->
  ok r = true ->
  (exists e, last (trace (snd (fetchRealtimeData tick w)))
             = Some (Console (FetchFailed e))) \/
  (exists before after,
      trace (snd (fetchRealtimeData tick w))
      = trace w ++ before
        ++ Display (areaStatus (snd (fetchRealtimeData tick w)))
           :: sends (Tick.clients tick) (areaStatus (snd (fetchRealtimeData tick w)))
        ++ after).
Proof.
  intros Hdue Hw Hrts Hok.
  destruct (fetchRealtimeData tick w) as [res w'] eqn:Hout. cbn [snd].
  rewrite fetchRealtimeData_run in Hout by assumption.
  set (wb := requested (Tick.now tick) w) in Hout.
  destruct (fetchData_run RtsEndpoint (Tick.rts tick) wb) as (messages & off & Hfetch).
  match type of Hfetch with _ = (_, ?w1) => set (wf := w1) in * end.
  assert (Hwf : store_invariant wf) by exact Hw.
  unfold try_catch, fetchCycle in Hout. unfold bind at 1 in Hout.
  rewrite Hfetch, Hrts in Hout. simpl answer in Hout.
  unfold bind at 1 in Hout. unfold handleResponse in Hout. rewrite Hok in Hout.
  unfold bind at 1 in Hout. unfold parse in Hout.
  destruct (json r) as [data |];
    [| injection Hout as _ <-; left; eexists; simpl; apply last_snoc].
  unfold ret at 1 in Hout. unfold bind at 1 in Hout.
  destruct (processTargetAreaData data (Tick.processNow tick) (Tick.station tick) wf)
    as [[targetAreaData | e] w2] eqn:Hproc;
    [| injection Hout as _ <-; left; eexists; simpl; apply last_snoc].
  assert (Hw2 : store_invariant w2)
    by exact (preserves_processTargetAreaData store_invariant_bookkeeping
                store_invariant_overwrite _ _ _ _ _ _ Hwf Hproc).
  assert (Hc2 : continues wf w2).
  { refine (preserves_processTargetAreaData (continues_bookkeeping wf)
              (continues_overwrite wf) _ _ _ _ _ _ _ Hproc).
    exists []. now rewrite app_nil_r. }
  destruct Hc2 as [ev2 Hev2].
  unfold bind at 1 in Hout. rewrite displayAreaStatus_eq in Hout.
  destruct (drawable (areaStatus w2)) eqn:Hdraw;
    [| injection Hout as _ <-; left; eexists; simpl; apply last_snoc].
  rewrite redraw_drawable in Hout by assumption.
  unfold bind at 1 in Hout.
  rewrite broadcast_reaches_open_clients, record_record in Hout.
  cbn [areaStatus record] in Hout.
  set (shown := [Display (areaStatus w2)] ++ sends (Tick.clients tick) (areaStatus w2))
    in Hout.
  assert (Hlog : exists r events,
    match targetAreaData with
    | Some result => forEach logUpdate (Result.updatedAreas result)
    | None => ret tt
    end (record shown w2) = (r, record events (record shown w2))).
  { destruct targetAreaData as [result |]; [apply logUpdates_run |].
    exists (Ok tt), []. now rewrite record_nil. }
  destruct Hlog as ([[] | e] & logs & Hlog); rewrite Hlog, record_record in Hout;
    [| injection Hout as _ <-; left; eexists; simpl; apply last_snoc].
  destruct (heartbeat_run (record (shown ++ logs) w2)) as ([[] | e] & beat & Hbeat);
    rewrite Hbeat, record_record in Hout; injection Hout as _ <-;
    [| left; eexists; simpl; apply last_snoc].
  right.
  exists (Request RtsEndpoint :: (Console <$> messages) ++ ev2), (logs ++ beat).
  cbn [areaStatus trace record]. rewrite Hev2. unfold shown.
  cbn [trace wf wb requested].
  rewrite <- !app_assoc. cbn [app]. rewrite <- !app_assoc. reflexivity.
Qed.

Lemma successful_tick_broadcasts_witness :
  (exists e, last (trace (snd (fetchRealtimeData readingTick Scenario.warm)))
             = Some (Console (FetchFailed e))) \/
  (exists before after,
      trace (snd (fetchRealtimeData readingTick Scenario.warm))
      = trace Scenario.warm ++ before
        ++ Display (areaStatus (snd (fetchRealtimeData readingTick Scenario.warm)))
           :: sends (Tick.clients readingTick)
                (areaStatus (snd (fetchRealtimeData readingTick Scenario.warm)))
        ++ after).
Proof.
  apply (successful_tick_broadcasts readingTick
           {| ok := true;
              json := Some (Scenario.payload [("S1", Scenario.reading 5 1.2 1)]) |}).
  - vm_compute. discriminate.
  - exact initialAreaStatus_dom.
  - reflexivity.
  - reflexivity.
Defined.

(** ** Reconciler: without metadata *)

(** X12: without a payload, or without its [station] member, the
    reconciler returns [null] at once: no request, no console line, no
    change.  With a payload but no station directory to be had (cache cold
    or expired, request failed or not OK) it returns [null] as well, says
    so on the console last, and leaves the store as it was. *)
Theorem processTargetAreaData_without_metadata :
  (forall now net w, processTargetAreaData None now net w = (Ok None, w)) /\
  (forall time now net w,
      processTargetAreaData (Some {| Rts.time := time; Rts.station := None |}) now net w
      = (Ok None, w)) /\
  (forall time entries now net w,
      expired now w ->
      failed net = true ->
      let out := processTargetAreaData
                   (Some {| Rts.time := time; Rts.station := Some entries |}) now net w in
      fst out = Ok None /\
      areaStatus (snd out) = areaStatus w /\
      last (trace (snd out)) = Some (Console MissingStationInfo)).
Proof.
  split; [reflexivity | split; [reflexivity |]].
  intros time entries now net w Hexp Hfail out. subst out.
  assert (Hrun : exists w1,
    processTargetAreaData
      (Some {| Rts.time := time; Rts.station := Some entries |}) now net w
    = (Ok None, record [Console MissingStationInfo] w1) /\
    areaStatus w1 = areaStatus w).
  { unfold processTargetAreaData. cbn [Rts.station]. unfold bind at 1.
    rewrite getStationInfo_refresh by assumption.
    destruct net as [aborted | r]; simpl in Hfail.
    - run_monad. simpl. destruct (isOffline w); simpl; eauto.
    - apply negb_true_iff in Hfail. run_monad. simpl.
      destruct (isOffline w); simpl; rewrite Hfail; simpl; eauto. }
  destruct Hrun as (w1 & -> & Hstore). cbn [fst snd].
  repeat split; [exact Hstore | apply last_snoc].
Qed.

Lemma processTargetAreaData_without_metadata_witness :
  let out := processTargetAreaData
               (Some {| Rts.time := None;
                        Rts.station := Some [("S1", Scenario.reading 5 1.2 1)] |})
               1000 (Rejected true) initialWorld in
  fst out = Ok None /\
  areaStatus (snd out) = areaStatus initialWorld /\
  last (trace (snd out)) = Some (Console MissingStationInfo).
Proof.
  apply (proj2 (proj2 processTargetAreaData_without_metadata)).
  - left. reflexivity.
  - reflexivity.
Defined.

(** ** Reconciler: what a run writes and reports *)

(** The loop body leaves the status of every other area alone. *)
Lemma processEntry_other_area si now entry acc w r w' areaCode :
  (forall l a, currentArea si (fst entry) = Some (l, a) -> Info.code l <> areaCode) ->
  processEntry si now entry acc w = (r, w') ->
  areaStatus w' !! areaCode = areaStatus w !! areaCode.
Proof.
  destruct entry as [stationId stationData]. cbn [fst]. intros Hother Hrun.
  destruct (nullInfo si stationId) eqn:Hnull.
  { rewrite processEntry_null in Hrun by assumption. now injection Hrun as _ <-. }
  destruct (currentArea si stationId) as [[l a] |] eqn:Hc.
  2: { rewrite processEntry_skip in Hrun by assumption. now injection Hrun as _ <-. }
  specialize (Hother l a eq_refl).
  destruct stationData as [reading |].
  2: { rewrite (processEntry_monitored _ _ _ _ _ _ _ Hc) in Hrun.
       now injection Hrun as _ <-. }
  rewrite (processEntry_run _ _ _ _ _ _ _ _ Hc) in Hrun.
  destruct (areaStatus w !! Info.code l) as [current |];
    [| now injection Hrun as _ <-].
  destruct (needsUpdate current reading); injection Hrun as _ <-; [| reflexivity].
  simpl. now rewrite lookup_insert_ne.
Qed.

Lemma forEntries_other_area si now entries acc w r w' areaCode :
  (forall entry l a, entry ∈ entries ->
                     currentArea si (fst entry) = Some (l, a) -> Info.code l <> areaCode) ->
  forEntries si now entries acc w = (r, w') ->
  areaStatus w' !! areaCode = areaStatus w !! areaCode.
Proof.
  revert acc w. induction entries as [| entry rest IH]; intros acc w Hother;
    cbn [forEntries].
  - now intros [= _ <-].
  - unfold bind.
    destruct (processEntry si now entry acc w) as [[acc1 | e] w1] eqn:Hstep;
      pose proof (processEntry_other_area si now entry acc w _ w1 areaCode
                    (fun l a => Hother entry l a ltac:(left)) Hstep) as H1.
    + intros Hrest. rewrite <- H1. apply (IH acc1 w1); [| exact Hrest].
      intros other l a Hin. apply Hother. now right.
    + now intros [= _ <-].
Qed.

(** X13: the last station wins.  After a run that returns, the store shows
    for an area the [pga] (0 when absent) and the integer intensity of the
    last payload entry whose station lies in that area, and that status has
    a time stamp. *)
Theorem last_entry_wins
    (si : StationInfo) (now : Z) (net : Net StationInfo) (time : option number)
    (before after : list (string * option Reading.t))
    (stationId : string) (reading : Reading.t)
    (latestInfo : Info.t) (targetArea : Area.t)
    (w w0 w' : World) (result : Result.t) :
  getStationInfo now net w = (Ok (Some si), w0) ->
  currentArea si stationId = Some (latestInfo, targetArea) ->
  (forall other l a,
      other ∈ after -> currentArea si (fst other) = Some (l, a) ->
      Info.code l <> Info.code latestInfo) ->
  Reading.I reading <> Some NaN ->
  processTargetAreaData
    (Some {| Rts.time := time;
             Rts.station := Some (before ++ (stationId, Some reading) :: after) |})
    now net w = (Ok (Some result), w') ->
  exists s,
    areaStatus w' !! Info.code latestInfo = Some s /\
    strict_eq (Status.pga s) (or_zero (Reading.pga reading)) = true /\
    strict_eq (Status.intensity s) (field (Reading.I reading)) = true /\
    is_Some (Status.lastUpdate s).
Proof.
  intros Hsi Hc Hafter Hjson Hrun.
  rewrite (processTargetAreaData_with_info si) with (w0 := w0) in Hrun by assumption.
  rewrite forEntries_app in Hrun. unfold bind in Hrun.
  destruct (forEntries si now before [] w0) as [[acc1 | e] w1]; [| discriminate].
  cbn [forEntries] in Hrun. unfold bind in Hrun.
  destruct (processEntry si now (stationId, Some reading) acc1 w1)
    as [[acc2 | e] w2] eqn:Hstep; [| discriminate].
  destruct (forEntries si now after acc2 w2) as [[acc3 | e] w3] eqn:Hrest;
    [| discriminate].
  injection Hrun as _ <-.
  assert (Hsettled : settled (areaStatus w2) si (stationId, Some reading)).
  { apply (processEntry_settles si now _ acc1 w1 acc2 w2); [| exact Hstep].
    intros r [= <-]. exact Hjson. }
  destruct (proj2 Hsettled latestInfo targetArea Hc) as (r & s & [= <-] & Hs & Hneed).
  apply needsUpdate_false in Hneed as (Hpga & Hint & Hstamp).
  exists s. repeat split; try assumption.
  rewrite <- Hs. exact (forEntries_other_area si now after acc2 w2 _ w3 _ Hafter Hrest).
Qed.

Lemma last_entry_wins_witness :
  exists s,
    areaStatus
      (snd (processTargetAreaData
              (Scenario.payload [("S1", Scenario.reading 5 1.2 1);
                                 ("S2", Scenario.reading 7 2 2);
                                 ("S3", Scenario.reading 9 3 3)])
              1000 (Rejected true) Scenario.warm)) !! 106%Z = Some s /\
    strict_eq (Status.pga s) (or_zero (VNum (Fin 7))) = true /\
    strict_eq (Status.intensity s) (field (Some (int 2))) = true /\
    is_Some (Status.lastUpdate s).
Proof.
  eapply (last_entry_wins Scenario.directory 1000%Z (Rejected true)
            (Some (int 1700000000000)) [("S1", Scenario.reading 5 1.2 1)]
            [("S3", Scenario.reading 9 3 3)] "S2"
            {| Reading.pga := VNum (Fin 7); Reading.i := VNum (Fin 2);
               Reading.I := Some (int 2) |}
            {| Info.code := 106; Info.lat := Fin 25; Info.lon := Fin 121.5 |}
            {| Area.code := 106; Area.name := "臺北市大安區" |}
            Scenario.warm Scenario.warm).
  - reflexivity.
  - reflexivity.
  - intros other l a Hin. apply list_elem_of_singleton in Hin. subst other.
    vm_compute. intros [= <- _]. discriminate.
  - discriminate.
  - vm_compute. reflexivity.
Defined.

Lemma processEntry_reports si now stationId stationData acc w acc' w' :
  processEntry si now (stationId, stationData) acc w = (Ok acc', w') ->
  acc' = acc \/
  exists l a reading x,
    currentArea si stationId = Some (l, a) /\
    stationData = Some reading /\ Reading.i reading = VNum x /\
    acc' = acc ++ [updatedOf stationId l a reading x] /\
    areaStatus w' !! Info.code l = Some (statusOf a reading now).
Proof.
  intros Hrun.
  pose proof (processEntry_returns_nullInfo _ _ _ _ _ _ _ _ Hrun) as Hnull.
  destruct (currentArea si stationId) as [[l a] |] eqn:Hc.
  2: { rewrite processEntry_skip in Hrun by assumption. injection Hrun as <- _. now left. }
  destruct stationData as [reading |].
  2: { rewrite (processEntry_monitored _ _ _ _ _ _ _ Hc) in Hrun. discriminate. }
  rewrite (processEntry_run _ _ _ _ _ _ _ _ Hc) in Hrun.
  destruct (areaStatus w !! Info.code l) as [current |]; [| discriminate].
  destruct (needsUpdate current reading); [| injection Hrun as <- _; now left].
  destruct (Reading.i reading) as [| | | x | |] eqn:Hi; try discriminate.
  injection Hrun as <- <-. right. exists l, a, reading, x.
  repeat split; try assumption. apply lookup_insert_eq.
Qed.

Lemma forEntries_reports si now entries acc w acc' w' :
  forEntries si now entries acc w = (Ok acc', w') ->
  exists new,
    acc' = acc ++ new /\
    sublist (Updated.stationId <$> new) (fst <$> entries) /\
    Forall (reported si entries) new.
Proof.
  revert acc w. induction entries as [| [stationId stationData] rest IH];
    intros acc w; cbn [forEntries].
  - intros [= <- _]. exists []. rewrite app_nil_r. repeat constructor.
  - unfold bind.
    destruct (processEntry si now (stationId, stationData) acc w)
      as [[acc1 | e] w1] eqn:Hstep; [| discriminate].
    intros Hrest. apply IH in Hrest as (new & -> & Hsub & Hall).
    assert (Hweaken : Forall (reported si ((stationId, stationData) :: rest)) new).
    { eapply Forall_impl; [exact Hall |].
      intros u (l & a & reading & x & Hin & Hrest'). exists l, a, reading, x.
      split; [now right | exact Hrest']. }
    apply processEntry_reports in Hstep
      as [-> | (l & a & reading & x & Hc & -> & Hi & -> & _)].
    + exists new. split; [reflexivity |]. split; [| exact Hweaken].
      cbn [fmap list_fmap fst]. now apply sublist_cons.
    + exists (updatedOf stationId l a reading x :: new).
      split; [now rewrite <- app_assoc |]. split.
      * cbn [fmap list_fmap fst]. now apply sublist_skip.
      * constructor; [| exact Hweaken].
        exists l, a, reading, x. repeat split; try assumption. left.
Qed.

(** X14: the changed-list of a run that returns.  Its elements follow the
    order of the payload, at most one for each entry; each one comes from an
    entry of a station in a configured area whose [i] is a number, and
    carries that station's id, the code and coordinates of the station's
    last info, the configured name of the area and the entry's values. *)
Theorem changed_list_sound
    (si : StationInfo) (now : Z) (net : Net StationInfo) (time : option number)
    (entries : list (string * option Reading.t))
    (w w0 w' : World) (result : Result.t) :
  getStationInfo now net w = (Ok (Some si), w0) ->
  processTargetAreaData
    (Some {| Rts.time := time; Rts.station := Some entries |}) now net w
  = (Ok (Some result), w') ->
  sublist (Updated.stationId <$> Result.updatedAreas result) (fst <$> entries) /\
  forall u,
    u ∈ Result.updatedAreas result ->
    exists l a reading x,
      (Updated.stationId u, Some reading) ∈ entries /\
      currentArea si (Updated.stationId u) = Some (l, a) /\
      Reading.i reading = VNum x /\
      Updated.code u = Info.code l /\
      Updated.code u ∈ targets /\
      Updated.name u = Area.name a /\
      Updated.location u = (Info.lat l, Info.lon l) /\
      Updated.pga u = or_zero (Reading.pga reading) /\
      Updated.intensity u = field (Reading.I reading).
Proof.
  intros Hsi Hrun.
  rewrite (processTargetAreaData_with_info si) with (w0 := w0) in Hrun by assumption.
  destruct (forEntries si now entries [] w0) as [[acc | e] w1] eqn:Hloop;
    [| discriminate].
  injection Hrun as <- _. cbn [Result.updatedAreas].
  apply forEntries_reports in Hloop as (new & -> & Hsub & Hall).
  split; [exact Hsub |].
  intros u Hu. rewrite Forall_forall in Hall.
  destruct (Hall u Hu) as (l & a & reading & x & Hin & Hc & Hi & Hu').
  exists l, a, reading, x. rewrite Hu'. cbn.
  repeat split; try assumption. exact (currentArea_targets _ _ _ _ Hc).
Qed.

Lemma changed_list_sound_witness :
  let entries := [("S4", Scenario.reading 9 3 3); ("S1", Scenario.reading 5 1.2 1);
                  ("S3", Scenario.reading 0 0 0)] in
  let result :=
    {| Result.time := int 1700000000000;
       Result.updatedAreas :=
         [updatedOf "S1" {| Info.code := 106; Info.lat := Fin 25; Info.lon := Fin 121.5 |}
            {| Area.code := 106; Area.name := "臺北市大安區" |}
            {| Reading.pga := VNum (Fin 5); Reading.i := VNum (Fin 1.2);
               Reading.I := Some (int 1) |} (Fin 1.2);
          updatedOf "S3" {| Info.code := 402; Info.lat := Fin 25; Info.lon := Fin 121.5 |}
            {| Area.code := 402; Area.name := "臺中市南區" |}
            {| Reading.pga := VNum (Fin 0); Reading.i := VNum (Fin 0);
               Reading.I := Some (int 0) |} (Fin 0)] |} in
  sublist (Updated.stationId <$> Result.updatedAreas result) (fst <$> entries) /\
  forall u,
    u ∈ Result.updatedAreas result ->
    exists l a reading x,
      (Updated.stationId u, Some reading) ∈ entries /\
      currentArea Scenario.directory (Updated.stationId u) = Some (l, a) /\
      Reading.i reading = VNum x /\
      Updated.code u = Info.code l /\
      Updated.code u ∈ targets /\
      Updated.name u = Area.name a /\
      Updated.location u = (Info.lat l, Info.lon l) /\
      Updated.pga u = or_zero (Reading.pga reading) /\
      Updated.intensity u = field (Reading.I reading).
Proof.
  intros entries result.
  apply (changed_list_sound Scenario.directory 1000%Z (Rejected true)
           (Some (int 1700000000000)) entries Scenario.warm Scenario.warm
           (snd (processTargetAreaData (Scenario.payload entries) 1000
                   (Rejected true) Scenario.warm)) result).
  - reflexivity.
  - vm_compute. reflexivity.
Defined.

(** ** Reconciler: the text field *)

(** What the loop body leaves in the store. *)
Lemma processEntry_writes si now stationId stationData acc w r w' :
  processEntry si now (stationId, stationData) acc w = (r, w') ->
  areaStatus w' = areaStatus w \/
  exists reading l a,
    stationData = Some reading /\ currentArea si stationId = Some (l, a) /\
    areaStatus w' = <[Info.code l := statusOf a reading now]> (areaStatus w).
Proof.
  intros Hrun.
  destruct (nullInfo si stationId) eqn:Hnull.
  { rewrite processEntry_null in Hrun by assumption. injection Hrun as _ <-. now left. }
  destruct (currentArea si stationId) as [[l a] |] eqn:Hc.
  2: { rewrite processEntry_skip in Hrun by assumption. injection Hrun as _ <-. now left. }
  destruct stationData as [reading |].
  2: { rewrite (processEntry_monitored _ _ _ _ _ _ _ Hc) in Hrun.
       injection Hrun as _ <-. now left. }
  rewrite (processEntry_run _ _ _ _ _ _ _ _ Hc) in Hrun.
  destruct (areaStatus w !! Info.code l) as [current |];
    [| injection Hrun as _ <-; now left].
  destruct (needsUpdate current reading); injection Hrun as _ <-; [| now left].
  right. exists reading, l, a. repeat split.
Qed.

(** A status the loop leaves in the store is the one that was there, or
    the one built from an entry of a station of that area. *)
Lemma forEntries_writes si now entries acc w r w' areaCode s :
  forEntries si now entries acc w = (r, w') ->
  areaStatus w' !! areaCode = Some s ->
  areaStatus w !! areaCode = Some s \/
  exists stationId reading l a,
    (stationId, Some reading) ∈ entries /\
    currentArea si stationId = Some (l, a) /\
    Info.code l = areaCode /\ s = statusOf a reading now.
Proof.
  revert acc w. induction entries as [| [stationId stationData] rest IH];
    intros acc w; cbn [forEntries].
  - intros [= _ <-]. now left.
  - unfold bind.
    destruct (processEntry si now (stationId, stationData) acc w)
      as [[acc1 | e] w1] eqn:Hstep;
      apply processEntry_writes in Hstep.
    + intros Hrest Hs.
      destruct (IH _ _ Hrest Hs) as [Hold | (id & reading & l & a & Hin & Hrest')].
      * destruct Hstep as [<- | (reading & l & a & -> & Hc & Hw1)]; [now left |].
        rewrite Hw1 in Hold. destruct (decide (Info.code l = areaCode)) as [Heq | Hne].
        -- rewrite Heq, lookup_insert_eq in Hold. injection Hold as <-.
           right. exists stationId, reading, l, a. repeat split; try assumption. left.
        -- rewrite lookup_insert_ne in Hold by assumption. now left.
      * right. exists id, reading, l, a. split; [now right | exact Hrest'].
    + intros [= _ <-] Hs.
      destruct Hstep as [<- | (reading & l & a & -> & Hc & Hw1)]; [now left |].
      rewrite Hw1 in Hs. destruct (decide (Info.code l = areaCode)) as [Heq | Hne].
      * rewrite Heq, lookup_insert_eq in Hs. injection Hs as <-.
        right. exists stationId, reading, l, a. repeat split; try assumption. left.
      * rewrite lookup_insert_ne in Hs by assumption. now left.
Qed.

(** C10: where change detection asks for a write, the loop body files
    under the station's area the status built from the reading, whose
    [intensityText] is the reading's upstream field [i], and then, when
    that [i] is a number, adds one element to the changed-list that carries
    the number as [intensityText] and its two-digit rendering as
    [intensityFloat] (when it is not, the body raises).  After a run every
    status of the store is the one found there or the one built from a
    payload reading of a station of that area, and every element of the
    changed-list is built from the reading of the station it names: the
    text is the upstream [i], never an entry of the scale of
    [IntensityCalculator]. *)
Theorem intensityText_is_upstream_float
    (data : option Rts.t) (now : Z) (net : Net StationInfo) (w : World) :
  (forall si stationId reading latestInfo targetArea current acc w0,
      currentArea si stationId = Some (latestInfo, targetArea) ->
      areaStatus w0 !! Info.code latestInfo = Some current ->
      needsUpdate current reading = true ->
      areaStatus (snd (processEntry si now (stationId, Some reading) acc w0))
        !! Info.code latestInfo = Some (statusOf targetArea reading now) /\
      Status.intensityText (statusOf targetArea reading now) = Reading.i reading /\
      match Reading.i reading with
      | VNum x =>
          exists u,
            fst (processEntry si now (stationId, Some reading) acc w0) = Ok (acc ++ [u]) /\
            Updated.stationId u = stationId /\
            Updated.intensityText u = VNum x /\
            Updated.intensityFloat u = toFixed x 2
      | _ => fst (processEntry si now (stationId, Some reading) acc w0) = Throw TypeError
      end) /\
  (forall areaCode s,
      areaStatus (snd (processTargetAreaData data now net w)) !! areaCode = Some s ->
      areaStatus w !! areaCode = Some s \/
      exists si stationId reading latestInfo targetArea,
        fst (getStationInfo now net w) = Ok (Some si) /\
        payload_entry data stationId reading /\
        currentArea si stationId = Some (latestInfo, targetArea) /\
        Info.code latestInfo = areaCode /\
        s = statusOf targetArea reading now /\
        Status.intensityText s = Reading.i reading) /\
  (forall result u,
      fst (processTargetAreaData data now net w) = Ok (Some result) ->
      u ∈ Result.updatedAreas result ->
      exists si reading x latestInfo targetArea,
        fst (getStationInfo now net w) = Ok (Some si) /\
        payload_entry data (Updated.stationId u) reading /\
        currentArea si (Updated.stationId u) = Some (latestInfo, targetArea) /\
        Reading.i reading = VNum x /\
        u = updatedOf (Updated.stationId u) latestInfo targetArea reading x /\
        Updated.intensityText u = VNum x /\
        Updated.intensityFloat u = toFixed x 2).
Proof.
  split; [| split].
  - intros si stationId reading latestInfo targetArea current acc w0 Hc Hcur Hneed.
    rewrite (processEntry_run _ _ _ _ _ _ _ _ Hc), Hcur, Hneed. cbn [fst snd].
    split; [apply lookup_insert_eq |]. split; [reflexivity |].
    destruct (Reading.i reading) as [| | | x | |] eqn:Hi; try reflexivity.
    eexists. split; [reflexivity |]. cbn. rewrite Hi. repeat split.
  - destruct (processTargetAreaData data now net w) as [r w'] eqn:Hrun. cbn [snd].
    unfold processTargetAreaData in Hrun.
    destruct data as [d |]; [| injection Hrun as _ <-; now left].
    destruct (Rts.station d) as [entries |] eqn:Hentries;
      [| injection Hrun as _ <-; now left].
    unfold bind at 1 in Hrun.
    destruct (getStationInfo now net w) as [[[si |] | e] w0] eqn:Hsi;
      pose proof (preserves_getStationInfo (same_store_bookkeeping (areaStatus w))
                    now net w _ w0 eq_refl Hsi) as Hw0.
    + unfold bind, ret in Hrun. intros areaCode s Hs.
      destruct (forEntries si now entries [] w0) as [[acc | e] w1] eqn:Hloop;
        injection Hrun as _ <-;
        (destruct (forEntries_writes _ _ _ _ _ _ _ _ _ Hloop Hs)
          as [Hold | (id & reading & l & a & Hin & Hc & Hcode & ->)];
         [left; now rewrite <- Hw0 |
          right; exists si, id, reading, l, a;
          repeat split; try assumption; now exists d, entries]).
    + run_monad in Hrun. injection Hrun as _ <-. simpl.
      intros c s Hs. left. now rewrite <- Hw0.
    + injection Hrun as _ <-. intros c s Hs. left. now rewrite <- Hw0.
  - intros result u Hrun Hu.
    destruct (processTargetAreaData data now net w) as [r w'] eqn:Hout.
    cbn [fst] in Hrun. subst r. unfold processTargetAreaData in Hout.
    destruct data as [d |]; [| discriminate].
    destruct (Rts.station d) as [entries |] eqn:Hentries; [| discriminate].
    unfold bind at 1 in Hout.
    destruct (getStationInfo now net w) as [[[si |] | e] w0] eqn:Hsi;
      [| run_monad in Hout; discriminate | discriminate].
    unfold bind, ret in Hout.
    destruct (forEntries si now entries [] w0) as [[acc | e] w1] eqn:Hloop;
      [| discriminate].
    injection Hout as <- _. cbn [Result.updatedAreas] in Hu.
    apply forEntries_reports in Hloop as (new & -> & _ & Hall).
    rewrite Forall_forall in Hall.
    destruct (Hall u Hu) as (l & a & reading & x & Hin & Hc & Hi & Hu').
    exists si, reading, x, l, a. repeat split; try assumption.
    + now exists d, entries.
    + rewrite Hu'. cbn. exact Hi.
    + rewrite Hu'. reflexivity.
Qed.

Lemma intensityText_is_upstream_float_witness :
  let reading := {| Reading.pga := VNum (Fin 5); Reading.i := VNum (Fin 1.2);
                    Reading.I := Some (int 1) |} in
  let area := {| Area.code := 106; Area.name := "臺北市大安區" |} in
  let out := processEntry Scenario.directory 1000 ("S1", Some reading) [] Scenario.warm in
  let data := Scenario.payload [("S1", Some reading)] in
  let run := processTargetAreaData data 1000 (Rejected true) Scenario.warm in
  (areaStatus (snd out) !! 106%Z = Some (statusOf area reading 1000) /\
   Status.intensityText (statusOf area reading 1000) = VNum (Fin 1.2) /\
   exists u,
     fst out = Ok [u] /\
     Updated.stationId u = "S1" /\
     Updated.intensityText u = VNum (Fin 1.2) /\
     Updated.intensityFloat u = toFixed (Fin 1.2) 2) /\
  (exists si stationId reading' latestInfo targetArea,
      fst (getStationInfo 1000 (Rejected true) Scenario.warm) = Ok (Some si) /\
      payload_entry data stationId reading' /\
      currentArea si stationId = Some (latestInfo, targetArea) /\
      Info.code latestInfo = 106%Z /\
      statusOf area reading 1000 = statusOf targetArea reading' 1000 /\
      Status.intensityText (statusOf area reading 1000) = Reading.i reading') /\
  (forall u,
      u ∈ [updatedOf "S1" {| Info.code := 106; Info.lat := Fin 25; Info.lon := Fin 121.5 |}
             area reading (Fin 1.2)] ->
      exists si reading' x latestInfo targetArea,
        fst (getStationInfo 1000 (Rejected true) Scenario.warm) = Ok (Some si) /\
        payload_entry data (Updated.stationId u) reading' /\
        currentArea si (Updated.stationId u) = Some (latestInfo, targetArea) /\
        Reading.i reading' = VNum x /\
        u = updatedOf (Updated.stationId u) latestInfo targetArea reading' x /\
        Updated.intensityText u = VNum x /\
        Updated.intensityFloat u = toFixed x 2).
Proof.
  intros reading area out data run.
  destruct (intensityText_is_upstream_float data 1000%Z (Rejected true) Scenario.warm)
    as (Hbody & Hstore & Hlist).
  split; [| split].
  - exact (Hbody Scenario.directory "S1" reading
             {| Info.code := 106; Info.lat := Fin 25; Info.lon := Fin 121.5 |}
             area (initialStatus area) [] Scenario.warm eq_refl eq_refl eq_refl).
  - destruct (Hstore 106%Z (statusOf area reading 1000)) as [Hold | Hnew].
    + vm_compute. reflexivity.
    + vm_compute in Hold. discriminate.
    + exact Hnew.
  - intros u Hu.
    apply (Hlist {| Result.time := int 1700000000000;
                    Result.updatedAreas :=
                      [updatedOf "S1"
                         {| Info.code := 106; Info.lat := Fin 25; Info.lon := Fin 121.5 |}
                         area reading (Fin 1.2)] |} u);
      [vm_compute; reflexivity | exact Hu].
Defined.

(** ** Properties kept by the statuses the reconciler writes *)

Section Writes.

Context {P : World -> Prop}.
Hypothesis HP : bookkeeping_free P.
Hypothesis HP_write : write_stable P.

Lemma writes_processEntry si now entry acc : preserves P (processEntry si now entry acc).
Proof.
  destruct entry as [stationId stationData]. intros w r w' Hw Hrun.
  destruct (nullInfo si stationId) eqn:Hnull.
  { rewrite processEntry_null in Hrun by assumption. now injection Hrun as _ <-. }
  destruct (currentArea si stationId) as [[l a] |] eqn:Hc.
  2: { rewrite processEntry_skip in Hrun by assumption. now injection Hrun as _ <-. }
  destruct stationData as [reading |].
  2: { rewrite (processEntry_monitored _ _ _ _ _ _ _ Hc) in Hrun.
       now injection Hrun as _ <-. }
  rewrite (processEntry_run _ _ _ _ _ _ _ _ Hc) in Hrun.
  destruct (areaStatus w !! Info.code l) as [current |];
    [| now injection Hrun as _ <-].
  destruct (needsUpdate current reading); injection Hrun as _ <-; [| exact Hw].
  apply HP_write; [| exact Hw].
  exact (currentArea_findTargetArea _ _ _ _ Hc).
Qed.

Lemma writes_forEntries si now entries acc : preserves P (forEntries si now entries acc).
Proof.
  revert acc. induction entries as [| e rest IH]; intros acc; cbn [forEntries].
  - apply preserves_ret.
  - apply preserves_bind; [apply writes_processEntry | intros a; apply IH].
Qed.

Lemma writes_processTargetAreaData data now net :
  preserves P (processTargetAreaData data now net).
Proof.
  unfold processTargetAreaData.
  destruct data as [d |]; [| apply preserves_ret].
  destruct (Rts.station d) as [entries |]; [| apply preserves_ret].
  apply preserves_bind; [now apply preserves_getStationInfo | intros [si |]].
  - apply preserves_bind; [apply writes_forEntries | intros a; apply preserves_ret].
  - apply preserves_bind; [now apply preserves_emit | intros _; apply preserves_ret].
Qed.

Lemma writes_handleResponse tick rtsResponse :
  preserves P (handleResponse tick rtsResponse).
Proof.
  unfold handleResponse. destruct rtsResponse as [r |]; [| apply preserves_ret].
  destruct (ok r); [| apply preserves_ret].
  apply preserves_bind; [apply preserves_parse | intros rtsData].
  apply preserves_bind; [apply writes_processTargetAreaData | intros targetAreaData].
  apply preserves_bind; [now apply preserves_displayAreaStatus | intros _].
  apply preserves_bind; [now apply preserves_broadcast | intros _].
  destruct targetAreaData as [result |]; [| apply preserves_ret].
  apply preserves_forEach. intros area. now apply preserves_logUpdate.
Qed.

Hypothesis HP_request : forall w now, P w -> P (requested now w).

Lemma writes_fetchRealtimeData tick : preserves P (fetchRealtimeData tick).
Proof.
  unfold fetchRealtimeData. apply preserves_bind; [apply preserves_get | intros w0].
  apply preserves_if; [apply preserves_ret |].
  apply preserves_bind.
  - intros w r w' Hw [= <- <-]. now apply HP_request.
  - intros _. apply preserves_try_catch; [| intros e; now apply preserves_emit].
    unfold fetchCycle.
    apply preserves_bind; [now apply preserves_fetchData | intros rtsResponse].
    apply preserves_bind; [apply writes_handleResponse | intros _].
    now apply preserves_heartbeat.
Qed.

Lemma writes_main now net ticks : preserves P (main now net ticks).
Proof.
  unfold main, poll.
  apply preserves_bind; [now apply preserves_getStationInfo | intros _].
  apply preserves_bind; [now apply preserves_displayAreaStatus | intros _].
  apply preserves_forEach, writes_fetchRealtimeData.
Qed.

End Writes.

Lemma store_labelled_initial : store_labelled initialWorld.
Proof.
  intros areaCode s Hs. cbn [areaStatus initialWorld] in Hs.
  unfold initialAreaStatus in Hs. cbn [foldl CONFIG.targetAreas] in Hs.
  repeat (apply lookup_insert_Some in Hs as [[<- <-] | [_ Hs]];
          [eexists; repeat split; reflexivity |]).
  now rewrite lookup_empty in Hs.
Qed.

Lemma store_labelled_write : write_stable store_labelled.
Proof.
  intros w areaCode area reading now Harea Hw c s Hs. cbn [areaStatus overwrite] in Hs.
  apply lookup_insert_Some in Hs as [[<- <-] | [_ Hs]]; [| exact (Hw c s Hs)].
  exists area. repeat split; [exact Harea | discriminate].
Qed.

(** X15: in every state the program reaches, each status of the store is
    filed under a configured area code and bears the configured name of that
    area; and a status without time stamp is untouched: [pga] 0, intensity
    0, text "0".  So a [null] [lastUpdate] always means that no reading was
    recorded for the area. *)
Theorem store_stays_labelled
    (now : Z) (net : Net StationInfo) (ticks : list Tick.t) :
  store_labelled (snd (main now net ticks initialWorld)) /\
  store_labelled (snd (poll ticks initialWorld)).
Proof.
  split.
  - refine (writes_main (P := store_labelled) _ store_labelled_write _ now net ticks
              initialWorld _ _ store_labelled_initial (surjective_pairing _)).
    + intros w off si last events Hw. exact Hw.
    + intros w t Hw. exact Hw.
  - refine (preserves_forEach (P := store_labelled) _ _ _ initialWorld _ _
              store_labelled_initial (surjective_pairing _)).
    intros tick. apply writes_fetchRealtimeData.
    + intros w off si last events Hw. exact Hw.
    + exact store_labelled_write.
    + intros w t Hw. exact Hw.
Qed.

Lemma store_stays_labelled_witness :
  let tick := {| Tick.now := 5000;
                 Tick.rts := Resolved {| ok := true;
                                         json := Some (Scenario.payload
                                                         [("S3", Scenario.reading 9 3 3)]) |};
                 Tick.processNow := 5001;
                 Tick.station := Scenario.served;
                 Tick.clients := None |} in
  exists area,
    findTargetArea 402 = Some area /\
    Status.name (statusOf {| Area.code := 402; Area.name := "臺中市南區" |}
                   {| Reading.pga := VNum (Fin 9); Reading.i := VNum (Fin 3);
                      Reading.I := Some (int 3) |} 5001)
    = Area.name area /\
    (Status.lastUpdate (statusOf {| Area.code := 402; Area.name := "臺中市南區" |}
                          {| Reading.pga := VNum (Fin 9); Reading.i := VNum (Fin 3);
                             Reading.I := Some (int 3) |} 5001) = None ->
     statusOf {| Area.code := 402; Area.name := "臺中市南區" |}
       {| Reading.pga := VNum (Fin 9); Reading.i := VNum (Fin 3);
          Reading.I := Some (int 3) |} 5001 = initialStatus area).
Proof.
  intros tick.
  apply (proj2 (store_stays_labelled 0%Z (Rejected true) [tick]) 402%Z).
  vm_compute. reflexivity.
Defined.

(** ** Start-up *)

(** X16: what [main] comes to.  From the initial state it throws exactly
    when the station service answers the first request OK with a body that
    does not parse; a rejected request or a non-OK answer does not stop the
    start-up, and then every call of the timer is run. *)
Theorem main_startup (now : Z) (net : Net StationInfo) (ticks : list Tick.t) :
  fst (main now net ticks initialWorld)
  = match net with
    | Resolved r =>
        if ok r then match json r with
                     | Some _ => Ok tt
                     | None => Throw SyntaxError
                     end
        else Ok tt
    | Rejected _ => Ok tt
    end.
Proof.
  assert (Hboot : match net with
                  | Resolved r =>
                      if ok r then match json r with
                                   | Some _ => True
                                   | None => False
                                   end
                      else True
                  | Rejected _ => True
                  end ->
                  exists o w1, getStationInfo now net initialWorld = (Ok o, w1)).
  { intros Hgood. rewrite getStationInfo_refresh by (left; reflexivity).
    destruct net as [aborted | r]; [run_monad; simpl; eauto |].
    run_monad. simpl. destruct (ok r); [| simpl; eauto].
    destruct (json r); [simpl; eauto | contradiction]. }
  assert (Hrest : forall w1, areaStatus w1 = initialAreaStatus ->
                             fst ((displayAreaStatus ;; poll ticks) w1) = Ok tt).
  { intros w1 Hw1. unfold bind.
    rewrite displayAreaStatus_run by (rewrite Hw1; reflexivity).
    rewrite poll_runs_every_tick. reflexivity. }
  assert (H0 : areaStatus initialWorld = initialAreaStatus) by reflexivity.
  unfold main. unfold bind at 1.
  destruct net as [aborted | r].
  - destruct (Hboot I) as (o & w1 & Hrun). rewrite Hrun. apply Hrest.
    exact (preserves_getStationInfo (same_store_bookkeeping initialAreaStatus)
               _ _ _ _ _ H0 Hrun).
  - destruct (ok r) eqn:Hok.
    + destruct (json r) as [body |] eqn:Hjson.
      * destruct Hboot as (o & w1 & Hrun); [rewrite ?Hok, ?Hjson; exact I |].
        rewrite Hrun. apply Hrest.
        exact (preserves_getStationInfo (same_store_bookkeeping initialAreaStatus)
               _ _ _ _ _ H0 Hrun).
      * rewrite getStationInfo_refresh by (left; reflexivity).
        run_monad. simpl. rewrite Hok, Hjson. reflexivity.
    + destruct Hboot as (o & w1 & Hrun); [rewrite ?Hok; exact I |].
      rewrite Hrun. apply Hrest.
      exact (preserves_getStationInfo (same_store_bookkeeping initialAreaStatus)
               _ _ _ _ _ H0 Hrun).
Qed.

(** ** Reconciler: what change detection looks at *)

(** X17: change detection compares [pga] and the integer intensity only.
    Once an entry has been processed, an entry of the same station with the
    same [pga] and [I] changes nothing and reports nothing, whatever its
    [i]: a new float intensity alone is not recorded, and a missing [i]
    does not throw then. *)
Theorem float_intensity_alone_is_ignored
    (si : StationInfo) (now now' : Z) (stationId : string) (reading : Reading.t)
    (i' : value) (acc acc1 acc' : list Updated.t) (w w1 : World) :
  Reading.I reading <> Some NaN ->
  processEntry si now (stationId, Some reading) acc w = (Ok acc1, w1) ->
  processEntry si now'
    (stationId, Some {| Reading.pga := Reading.pga reading; Reading.i := i';
                        Reading.I := Reading.I reading |}) acc' w1
  = (Ok acc', w1).
Proof.
  intros Hjson Hrun.
  pose proof (processEntry_returns_nullInfo _ _ _ _ _ _ _ _ Hrun) as Hnull.
  destruct (currentArea si stationId) as [[l a] |] eqn:Hc.
  2: { rewrite processEntry_skip by assumption. reflexivity. }
  assert (Hsettled : settled (areaStatus w1) si (stationId, Some reading)).
  { apply (processEntry_settles si now _ acc w acc1 w1); [| exact Hrun].
    intros r [= <-]. exact Hjson. }
  destruct (proj2 Hsettled l a Hc) as (r & s & [= <-] & Hs & Hneed).
  rewrite (processEntry_run _ _ _ _ _ _ _ _ Hc), Hs.
  change (needsUpdate s {| Reading.pga := Reading.pga reading; Reading.i := i';
                           Reading.I := Reading.I reading |})
    with (needsUpdate s reading).
  now rewrite Hneed.
Qed.

Lemma float_intensity_alone_is_ignored_witness :
  processEntry Scenario.directory 2000
    ("S1", Some {| Reading.pga := VNum (Fin 5); Reading.i := VUndefined;
                   Reading.I := Some (int 1) |}) []
    (snd (processEntry Scenario.directory 1000 ("S1", Scenario.reading 5 1.2 1) []
            Scenario.warm))
  = (Ok [], snd (processEntry Scenario.directory 1000 ("S1", Scenario.reading 5 1.2 1) []
                   Scenario.warm)).
Proof.
  apply (float_intensity_alone_is_ignored Scenario.directory 1000%Z 2000%Z "S1"
           {| Reading.pga := VNum (Fin 5); Reading.i := VNum (Fin 1.2);
              Reading.I := Some (int 1) |} VUndefined []
           [updatedOf "S1"
              {| Info.code := 106; Info.lat := Fin 25; Info.lon := Fin 121.5 |}
              {| Area.code := 106; Area.name := "臺北市大安區" |}
              {| Reading.pga := VNum (Fin 5); Reading.i := VNum (Fin 1.2);
                 Reading.I := Some (int 1) |} (Fin 1.2)]
           [] Scenario.warm).
  - discriminate.
  - vm_compute. reflexivity.
Defined.

(** ** Poll loop: counting *)

(** X19: the request counter never goes down and rises by at most one for
    each call of the timer; when the calls come at least one interval apart
    it rises by exactly one for each call, whatever the calls meet. *)
Theorem poll_counts (ticks : list Tick.t) (w : World) :
  (requestCounter w <= requestCounter (snd (poll ticks w))
   <= requestCounter w + Z.of_nat (length ticks))%Z /\
  (spaced (lastFetchTime w) ticks ->
   requestCounter (snd (poll ticks w)) = (requestCounter w + Z.of_nat (length ticks))%Z).
Proof.
  rewrite poll_runs_every_tick. cbn [snd]. revert w.
  induction ticks as [| tick rest IH]; intros w.
  - cbn [foldl length]. split; [lia | intros _; simpl; lia].
  - cbn [foldl]. destruct (IH (snd (fetchRealtimeData tick w))) as [Hbound Hexact].
    assert (Hstep :
      (requestCounter w <= requestCounter (snd (fetchRealtimeData tick w))
       <= requestCounter w + 1)%Z).
    { destruct (Z_lt_le_dec (Tick.now tick - lastFetchTime w) CONFIG.interval) as [Hsoon | Hdue].
      - rewrite fetchRealtimeData_limited by assumption. simpl. lia.
      - destruct (fetchRealtimeData_counted tick w Hdue) as [_ ->]. lia. }
    split.
    + rewrite length_cons, Nat2Z.inj_succ. lia.
    + intros [Hdue Hrest].
      destruct (fetchRealtimeData_counted tick w Hdue) as [Htime Hcount].
      rewrite Htime in Hexact. rewrite (Hexact Hrest), Hcount.
      rewrite length_cons, Nat2Z.inj_succ. lia.
Qed.

Lemma poll_counts_witness :
  requestCounter (snd (poll [garbledTick; tick60] Scenario.warm)) = 2%Z.
Proof.
  apply (proj2 (poll_counts [garbledTick; tick60] Scenario.warm)).
  vm_compute. repeat split; discriminate.
Defined.

(** ** Calls that overlap *)

Ltac unfold_call :=
  cbv beta iota zeta delta
    [bind ret get modify throw try_catch emit set_isOffline set_areaStatus
     set_stationInfo begin_request fetchData parse fetched reconcile publish
     settles advance resume start fetchRealtimeData fetchCycle handleResponse
     processTargetAreaData getStationInfo record requested isOffline lastFetchTime
     requestCounter areaStatus stationInfo lastStationInfoFetch trace fst snd negb
     Tick.now Tick.rts Tick.processNow Tick.station Tick.clients ok json
     Rts.time Rts.station].

Lemma turn_waiting tick a w :
  turn (Settled 0) (w, [(tick, a)]) =
  match resume tick a w with
  | (Ok (Some a'), w') => (w', [(tick, a')])
  | (_, w') => (w', [])
  end.
Proof. reflexivity. Qed.

Lemma turn_idle n w : turn (Settled n) (w, []) = (w, []).
Proof. reflexivity. Qed.

Lemma turn_timer tick w :
  turn (Timer tick) (w, []) =
  match start tick w with
  | (Ok (Some a), w') => (w', [(tick, a)])
  | (_, w') => (w', [])
  end.
Proof. reflexivity. Qed.

Ltac settle_atom :=
  match goal with
  | |- context [forEntries ?a ?b ?c ?d ?w] =>
      destruct (forEntries a b c d w) as [[? | ?] ?]
  | |- context [displayAreaStatus ?w] =>
      destruct (displayAreaStatus w) as [[[] | ?] ?]
  | |- context [broadcast ?c ?w] =>
      destruct (broadcast c w) as [[[] | ?] ?]
  | |- context [forEach logUpdate ?l ?w] =>
      destruct (forEach logUpdate l w) as [[[] | ?] ?]
  | |- context [heartbeat ?w] =>
      destruct (heartbeat w) as [[[] | ?] ?]
  end.

Ltac crank :=
  repeat first
    [ progress (rewrite ?turn_timer, ?turn_waiting, ?turn_idle)
    | progress unfold_call
    | match goal with
      | |- context [bool_decide ?P] => destruct (bool_decide P)
      end
    | settle_atom ];
  try reflexivity.

(** A call that no other call overlaps is [fetchRealtimeData]: its pieces,
    run one after the other, do what the call run in one go does. *)
Lemma alone_fetchRealtimeData tick w :
  eventLoop (alone tick) (w, []) = (snd (fetchRealtimeData tick w), []).
Proof.
  unfold alone, eventLoop. cbn [foldl replicate].
  destruct w as [lft rc off store cache lsf tr].
  destruct tick as [now rts pnow snet clients].
  rewrite turn_timer. unfold start, fetchRealtimeData. unfold bind at 1, get.
  unfold bind at 3. cbn [Tick.now lastFetchTime].
  destruct (bool_decide (now - lft < CONFIG.interval)%Z).
  { reflexivity. }
  destruct rts as [aborted | [[] [[[time [entries |]] |] |]]].
  1: destruct off; crank.
  1: { destruct off, cache as [si |], snet as [ab2 | [[] [body |]]]; crank. }
  all: destruct off; crank.
Qed.

Lemma eventLoop_app turns1 turns2 st :
  eventLoop (turns1 ++ turns2) st = eventLoop turns2 (eventLoop turns1 st).
Proof. unfold eventLoop. apply foldl_app. Qed.

(** [poll] is the event loop when no two calls overlap. *)
Lemma poll_eventLoop ticks w :
  eventLoop (concat (alone <$> ticks)) (w, []) = (snd (poll ticks w), []).
Proof.
  rewrite poll_runs_every_tick. cbn [snd]. revert w.
  induction ticks as [| tick ticks IH]; intros w.
  - reflexivity.
  - cbn [fmap list_fmap concat foldl].
    rewrite eventLoop_app, alone_fetchRealtimeData. apply IH.
Qed.

(** A call taken up again does not count: only the timer callback does. *)
Lemma advance_counter tick a w r w' :
  advance tick a w = (r, w') -> requestCounter w' = requestCounter w.
Proof.
  exact (preserves_advance (same_counter_bookkeeping (requestCounter w))
           (same_counter_overwrite (requestCounter w)) tick a w r w' eq_refl).
Qed.

(** The call taken up again at line 150, [fetch] having settled: it notes
    whether the network is off and hands the answer to line 363. *)
Lemma resume_RtsFetch tick w :
  resume tick RtsFetch w =
  (Ok (Some (RtsReturned (answer (Tick.rts tick)))),
   {| lastFetchTime := lastFetchTime w; requestCounter := requestCounter w;
      isOffline := rejected (Tick.rts tick); areaStatus := areaStatus w;
      stationInfo := stationInfo w;
      lastStationInfoFetch := lastStationInfoFetch w;
      trace := trace w ++ transition (Tick.rts tick) (isOffline w) |}).
Proof.
  unfold resume, advance, fetched. destruct w as [lft rc off store cache lsf tr].
  destruct (Tick.rts tick) as [aborted | r]; run_monad; cbn;
    destruct off; cbn; rewrite ?app_nil_r; reflexivity.
Qed.

(** The call taken up again at line 363 with no response, or one that is
    not OK: it goes straight to the test of line 403. *)
Lemma resume_RtsReturned_failed tick w :
  failed (Tick.rts tick) = true ->
  resume tick (RtsReturned (answer (Tick.rts tick))) w =
  if (requestCounter w mod 60 =? 0)%Z
  then (Ok None,
        record (redraw (areaStatus w)
                ++ if drawable (areaStatus w) then []
                   else [Console (FetchFailed TypeError)]) w)
  else (Ok None, w).
Proof.
  intros Hfail.
  assert (Hadv : advance tick (RtsReturned (answer (Tick.rts tick))) w = (Ok None, w)).
  { unfold advance, failed, answer in *.
    destruct (Tick.rts tick) as [aborted | r]; [reflexivity |].
    apply negb_true_iff in Hfail. now rewrite Hfail. }
  unfold resume, try_catch, bind. rewrite Hadv, heartbeat_eq.
  destruct (requestCounter w mod 60 =? 0)%Z; [| reflexivity].
  destruct (drawable (areaStatus w)).
  - now rewrite app_nil_r.
  - run_monad. now rewrite record_record.
Qed.

(** C9, as the code has it.  A call that gets to the test of line 403
    redraws the terminal table from the store exactly when the request
    counter, as it stands then, is a multiple of 60: the counter is read
    after the call has waited, and the calls the timer has started meanwhile
    have counted.  So a call that no other call overlaps redraws at the end
    when it is the 60th, 120th, ... counted call, whatever the change
    detection said, unless an exception cut it short ([pga] not a number
    among them).  The redraw sends nothing: a call whose realtime request
    failed or was answered non-OK notes the state of the network when the
    request settles and, taken up again at line 363, does the test and
    nothing else: the store is as it was and no subscriber is sent
    anything. *)
Theorem heartbeat_redraws_display (tick : Tick.t) :
  (forall a w wh,
      advance tick a w = (Ok None, wh) ->
      requestCounter wh = requestCounter w /\
      resume tick a w =
      if (requestCounter w mod 60 =? 0)%Z
      then (Ok None,
            record (redraw (areaStatus wh)
                    ++ if drawable (areaStatus wh) then []
                       else [Console (FetchFailed TypeError)]) wh)
      else (Ok None, wh)) /\
  (forall w,
      (CONFIG.interval <= Tick.now tick - lastFetchTime w)%Z ->
      ((requestCounter w + 1) mod 60 = 0)%Z ->
      let w' := fst (eventLoop (alone tick) (w, [])) in
      last (trace w') = Some (Display (areaStatus w')) \/
      exists e, last (trace w') = Some (Console (FetchFailed e))) /\
  (failed (Tick.rts tick) = true ->
   (forall w,
       resume tick RtsFetch w =
       (Ok (Some (RtsReturned (answer (Tick.rts tick)))),
        {| lastFetchTime := lastFetchTime w; requestCounter := requestCounter w;
           isOffline := rejected (Tick.rts tick); areaStatus := areaStatus w;
           stationInfo := stationInfo w;
           lastStationInfoFetch := lastStationInfoFetch w;
           trace := trace w ++ transition (Tick.rts tick) (isOffline w) |})) /\
   (forall w,
       resume tick (RtsReturned (answer (Tick.rts tick))) w =
       if (requestCounter w mod 60 =? 0)%Z
       then (Ok None,
             record (redraw (areaStatus w)
                     ++ if drawable (areaStatus w) then []
                        else [Console (FetchFailed TypeError)]) w)
       else (Ok None, w))).
Proof.
  split; [| split].
  - intros a w wh Hadv.
    pose proof (advance_counter _ _ _ _ _ Hadv) as Hc. split; [exact Hc |].
    unfold resume, try_catch, bind. rewrite Hadv, heartbeat_eq, Hc.
    destruct (requestCounter w mod 60 =? 0)%Z; [| reflexivity].
    destruct (drawable (areaStatus wh)).
    + now rewrite app_nil_r.
    + run_monad. now rewrite record_record.
  - intros w Hdue Hcount. rewrite alone_fetchRealtimeData. cbn [fst].
    rewrite fetchRealtimeData_run by assumption.
    set (wb := requested (Tick.now tick) w).
    assert (Hcb : (requestCounter wb mod 60 =? 0)%Z = true) by now apply Z.eqb_eq.
    destruct (try_catch (fetchCycle tick) _ wb) as [res w'] eqn:Hout. cbn [snd].
    unfold try_catch, fetchCycle in Hout. unfold bind at 1 in Hout.
    destruct (fetchData RtsEndpoint (Tick.rts tick) wb) as [[response | e] wf] eqn:Hfetch;
      [| injection Hout as _ <-; right; exists e; apply last_snoc].
    assert (Hcf : requestCounter wf = requestCounter wb)
      by exact (preserves_fetchData (same_counter_bookkeeping (requestCounter wb))
                  _ _ _ _ _ eq_refl Hfetch).
    unfold bind in Hout.
    destruct (handleResponse tick response wf) as [[[] | e] wh] eqn:Hh;
      [| injection Hout as _ <-; right; exists e; apply last_snoc].
    assert (Hch : requestCounter wh = requestCounter wf)
      by exact (preserves_handleResponse
                  (same_counter_bookkeeping (requestCounter wf))
                  (same_counter_overwrite (requestCounter wf)) _ _ _ _ _ eq_refl Hh).
    rewrite heartbeat_eq, Hch, Hcf, Hcb in Hout.
    destruct (drawable (areaStatus wh)) eqn:Hd; injection Hout as _ <-.
    + left. rewrite redraw_drawable by assumption. apply last_snoc.
    + right. exists TypeError. apply last_snoc.
  - intros Hfail. split; intros w.
    + apply resume_RtsFetch.
    + now apply resume_RtsReturned_failed.
Qed.

Lemma heartbeat_redraws_display_witness :
  (let w := fst (eventLoop [Timer refused60; Settled 0] (before60, [])) in
   requestCounter w = requestCounter w /\
   resume refused60 (RtsReturned None) w =
   if (requestCounter w mod 60 =? 0)%Z
   then (Ok None,
         record (redraw (areaStatus w)
                 ++ if drawable (areaStatus w) then []
                    else [Console (FetchFailed TypeError)]) w)
   else (Ok None, w)) /\
  (let w' := fst (eventLoop (alone beat60) (before60, [])) in
   last (trace w') = Some (Display (areaStatus w')) \/
   exists e, last (trace w') = Some (Console (FetchFailed e))) /\
  (let w := fst (eventLoop [Timer tick60; Timer tick61; Settled 0] (before60, [])) in
   resume tick60 (RtsReturned (answer (Tick.rts tick60))) w =
   if (requestCounter w mod 60 =? 0)%Z
   then (Ok None,
         record (redraw (areaStatus w)
                 ++ if drawable (areaStatus w) then []
                    else [Console (FetchFailed TypeError)]) w)
   else (Ok None, w)).
Proof.
  split; [| split].
  - apply (proj1 (heartbeat_redraws_display refused60) (RtsReturned None)).
    reflexivity.
  - apply (proj1 (proj2 (heartbeat_redraws_display beat60)) before60).
    + vm_compute. discriminate.
    + reflexivity.
  - apply (proj2 (proj2 (proj2 (heartbeat_redraws_display tick60)) eq_refl)).
Defined.

(** C9 as written fails, in two ways.  The redraw of the 60th call sends
    nothing: with the request refused and a ready subscriber connected, the
    call leaves the request, the log line and the redraw behind, and no
    message to the subscriber.  And the 60th call may not redraw at all:
    when its request runs into the timeout, the timer has started the 61st
    call before the 60th gets to its test, which then finds the counter at
    61; the 60th call ends without a redraw. *)
Lemma heartbeat_sends_nothing :
  (let w' := fst (eventLoop (alone refused60) (before60, [])) in
   requestCounter w' = 60%Z /\
   trace w' = [Request RtsEndpoint; Console RequestFailed; Display initialAreaStatus]) /\
  eventLoop [Timer tick60; Timer tick61; Settled 0; Settled 0] (before60, [])
  = ({| lastFetchTime := 61000;
        requestCounter := 61;
        isOffline := true;
        areaStatus := initialAreaStatus;
        stationInfo := Some Scenario.directory;
        lastStationInfoFetch := 0;
        trace := [Request RtsEndpoint; Request RtsEndpoint; Console RequestTimedOut] |},
     [(tick61, RtsFetch)]).
Proof. split; [split |]; vm_compute; reflexivity. Qed.

(** ** Poll loop: a failed request *)

(** X18: a call whose realtime request was rejected or answered non-OK.
    When the request settles the call notes whether the network is off and
    writes at most the one line of a connectivity change; taken up again at
    line 363 while the request counter is not a multiple of 60, whatever
    calls the timer has started meanwhile, it does nothing at all: no
    station request, no redraw, nothing sent, store, counter and station
    cache untouched.  For a call that no other call overlaps the counter is
    the call's own. *)
Theorem failed_tick_is_silent (tick : Tick.t) (w : World) :
  failed (Tick.rts tick) = true ->
  resume tick RtsFetch w
  = (Ok (Some (RtsReturned (answer (Tick.rts tick)))),
     {| lastFetchTime := lastFetchTime w;
        requestCounter := requestCounter w;
        isOffline := rejected (Tick.rts tick);
        areaStatus := areaStatus w;
        stationInfo := stationInfo w;
        lastStationInfoFetch := lastStationInfoFetch w;
        trace := trace w ++ transition (Tick.rts tick) (isOffline w) |}) /\
  ((requestCounter w mod 60 <> 0)%Z ->
   resume tick (RtsReturned (answer (Tick.rts tick))) w = (Ok None, w)) /\
  ((CONFIG.interval <= Tick.now tick - lastFetchTime w)%Z ->
   ((requestCounter w + 1) mod 60 <> 0)%Z ->
   eventLoop (alone tick) (w, [])
   = ({| lastFetchTime := Tick.now tick;
         requestCounter := requestCounter w + 1;
         isOffline := rejected (Tick.rts tick);
         areaStatus := areaStatus w;
         stationInfo := stationInfo w;
         lastStationInfoFetch := lastStationInfoFetch w;
         trace := trace w ++ Request RtsEndpoint
                          :: transition (Tick.rts tick) (isOffline w) |}, [])).
Proof.
  intros Hfail. split; [apply resume_RtsFetch | split].
  - intros Hcount. rewrite resume_RtsReturned_failed by assumption.
    apply Z.eqb_neq in Hcount. now rewrite Hcount.
  - intros Hdue Hcount. rewrite alone_fetchRealtimeData.
    rewrite fetchRealtimeData_run by assumption.
    unfold try_catch, fetchCycle. unfold bind at 1. rewrite fetchData_closed.
    rewrite handleResponse_failed by assumption.
    apply Z.eqb_neq in Hcount.
    unfold heartbeat. run_monad. cbn [requestCounter requested].
    rewrite Hcount. reflexivity.
Qed.

Lemma failed_tick_is_silent_witness :
  (let w := fst (eventLoop [Timer tick60; Timer tick61; Settled 0] (before60, [])) in
   resume tick60 (RtsReturned (answer (Tick.rts tick60))) w = (Ok None, w)) /\
  eventLoop (alone refused60) (Scenario.warm, [])
  = ({| lastFetchTime := 60000;
        requestCounter := 1;
        isOffline := true;
        areaStatus := areaStatus Scenario.warm;
        stationInfo := stationInfo Scenario.warm;
        lastStationInfoFetch := lastStationInfoFetch Scenario.warm;
        trace := [Request RtsEndpoint; Console RequestFailed] |}, []).
Proof.
  split.
  - apply (proj1 (proj2 (failed_tick_is_silent tick60
                           (fst (eventLoop [Timer tick60; Timer tick61; Settled 0]
                                   (before60, [])))
                           eq_refl))).
    vm_compute. discriminate.
  - apply (proj2 (proj2 (failed_tick_is_silent refused60 Scenario.warm eq_refl))).
    + vm_compute. discriminate.
    + vm_compute. discriminate.
Defined.

(** ** Display *)

